(** * resticity: scheduler, broadcast hub, viewer session and restic wrapper

  A shallow embedding of the Go sources

    - [restic.go]              (package main: [Restic.core], [Check], [Initialize])
    - [internal/scheduler.go]  ([Scheduler] and its job registry)
    - the HTTP/websocket server file ([runHub], [cleanClients], [handlePing],
      and the websocket event loop of [RunServer])

  Part I holds the definitions, one module per source file.  Part II holds
  the properties proved about them. *)

From Stdlib Require Import Ascii String ZArith Lia.
From stdpp Require Import gmap strings list fin_maps sets.




(* ===================================================================== *)
(** * Part I.  Definitions                                                *)
(* ===================================================================== *)

(** A Go [error] value: [None] is [nil], [Some e] carries [e.Error()]. *)
Definition error := option string.

(** The character [U+0022], to build JSON text. *)
Definition dq : string := String (ascii_of_nat 34) EmptyString.

(* --------------------------------------------------------------------- *)
(** ** restic.go                                                          *)
(* --------------------------------------------------------------------- *)

Module Restic.

(** The [Repository] struct is declared outside the files at hand;
    [core] reads these two fields of it. *)
Record Repository := mkRepository { Path : string; Password : string }.

(** What running one [exec.Cmd] does, as seen by the caller:
    the result of [Start], the result of [Wait], and the bytes the
    process wrote to the two buffers it was given. *)
Record Proc := mkProc {
  start_err : error;
  wait_err  : error;
  sout      : string;
  serr      : string
}.

(** The operating system: [os.Environ] and the effect of
    [exec.Command(path, args...)] run with a given environment. *)
Record OS := mkOS {
  Environ : list string;
  run     : string -> list string -> list string -> Proc
}.

(** [Restic] holds two shared buffers; [console] is what [fmt.Println]
    has printed so far. *)
Record t := mk {
  errb    : string;
  outb    : string;
  console : list string
}.

Definition Println (line : string) (r : t) : t :=
  {| errb := errb r; outb := outb r; console := console r ++ [line] |}.

(** [func (r *Restic) core(repository, cmd, envs) (string, error)] *)
Definition core (os : OS) (repository : Repository)
    (cmd envs : list string) (r : t) : t * (string * error) :=
  let cmds := ["-r"; Path repository; "--json"] ++ cmd in
  let env := Environ os ++ ["RESTIC_PASSWORD=" +:+ Password repository] in
  let c := run os "/usr/bin/restic" cmds env in
  let r := match start_err c with
           | Some err => Println err r
           | None => r
           end in
  (* c.Wait(): its result is dropped *)
  let r := {| errb := errb r +:+ serr c;
              outb := outb r +:+ sout c;
              console := console r |} in
  (r, (sout c, None)).

(** [func (r *Restic) Unlock(repository)] *)
Definition Unlock (os : OS) (repository : Repository) (r : t) : t :=
  match core os repository ["unlock"] [] r with
  | (r, (_, Some err)) => Println ("ERROR " +:+ err) r
  | (r, (_, None)) => r
  end.

(** [func (r *Restic) Check(repository) error] *)
Definition Check (os : OS) (repository : Repository) (r : t) : t * error :=
  match core os repository ["check"] [] r with
  | (r, (_, Some err)) => (r, Some err)
  | (r, (_, None)) => (r, None)
  end.

(** [func (r *Restic) Initialize(repository) error] *)
Definition Initialize (os : OS) (repository : Repository) (r : t) : t * error :=
  match core os repository ["init"] [] r with
  | (r, (_, Some err)) => (r, Some err)
  | (r, (_, None)) => (r, None)
  end.

(** The [Backup] struct is declared outside the files at hand;
    [RunBackup] reads this field of it. *)
Record Backup := mkBackup { BackupParams : list (list string) }.

(** [fmt.Println] of a slice of strings: its elements between brackets,
    a space between two of them. *)
Definition Println_slice (l : list string) (r : t) : t :=
  Println ("[" +:+ String.concat " " l +:+ "]") r.

Definition is_nil {A} (p : option A) : bool :=
  match p with None => true | Some _ => false end.

(** [func (r *Restic) RunBackup(backup *Backup, toRepository, fromRepository *Repository)];
    a nil pointer is [None].  The result is the time slept, in
    nanoseconds, and the state; the two calls of [r.core] are commented
    out in the source. *)
Definition RunBackup (backup : option Backup)
    (toRepository fromRepository : option Repository) (r : t) : Z * t :=
  let slept := (30 * 1000000000)%Z in
  if (is_nil backup && is_nil toRepository) || (is_nil fromRepository && is_nil toRepository)
  then (slept, Println "Nope!" r)
  else if negb (is_nil backup) && negb (is_nil fromRepository)
  then (slept, Println "Nope!" r)
  else
    let r := match backup with
             | Some b =>
                 let cmds := foldl (fun cmds p => cmds ++ p) ["backup"] (BackupParams b) in
                 Println_slice cmds r
             | None => r
             end in
    let r := match fromRepository with
             | Some from =>
                 let cmds := ["copy"; "--from-repo"; Path from] in
                 let envs := ["RESTIC_FROM_PASSWORD"; Password from] in
                 Println_slice envs (Println_slice cmds r)
             | None => r
             end in
    (slept, r).

End Restic.

(* --------------------------------------------------------------------- *)
(** ** Go library types used by the scheduler                             *)
(* --------------------------------------------------------------------- *)

(** A [time.Time], as a civil date and the nanoseconds elapsed in that
  day. *)
Module Time.

Record t := mk { year : Z; month : Z; day : Z; nanos : Z }.

Definition is_leap (y : Z) : bool :=
  ((y mod 4 =? 0) && (negb (y mod 100 =? 0) || (y mod 400 =? 0)))%Z.

(** [t.AddDate(years, 0, 0)]: the same month and day [years] later,
    normalised as [time.Date] does: 29 February of a year that is not a
    leap year is 1 March. *)
Definition AddDate_years (years : Z) (x : t) : t :=
  let y := (year x + years)%Z in
  if ((month x =? 2) && (day x =? 29))%Z && negb (is_leap y)
  then {| year := y; month := 3; day := 1; nanos := nanos x |}
  else {| year := y; month := month x; day := day x; nanos := nanos x |}.

End Time.

(** The part of [github.com/go-co-op/gocron/v2] the scheduler calls. *)
Module gocron.

Inductive JobDefinition :=
| CronJob (crontab : string) (withSeconds : bool)
| OneTimeJob (startAt : Time.t).

(** A [gocron.Job]: the handle [NewJob] returns.  [Name] is the value
    given through [gocron.WithName], [Tags] through [gocron.WithTags]. *)
Record Job := mkJob {
  ID : nat;
  Name : string;
  Def : JobDefinition;
  Tags : list string
}.

(** A [gocron.Scheduler]: the jobs registered with it, and the [ID]s for
    which an immediate run was requested. *)
Record Scheduler := mkScheduler {
  jobs : list Job;
  runNow : list nat
}.

(** The behaviour of the library that is not fixed by the program:
    for which definition and name [NewJob] yields an error (a crontab
    that does not parse, an empty name, a start time in the past, ...),
    and when [RunNow] does. *)
Record Lib := mkLib {
  NewJob_err : JobDefinition -> string -> error;
  RunNow_err : Scheduler -> Job -> error
}.

Definition NewJob (lib : Lib) (def : JobDefinition) (name : string)
    (tags : list string) (g : Scheduler) : Scheduler * (Job + string) :=
  match NewJob_err lib def name with
  | Some err => (g, inr err)
  | None =>
      let j := {| ID := length (jobs g); Name := name; Def := def; Tags := tags |} in
      ({| jobs := jobs g ++ [j]; runNow := runNow g |}, inl j)
  end.

Definition RunNow (lib : Lib) (j : Job) (g : Scheduler) : Scheduler * error :=
  match RunNow_err lib g j with
  | Some err => (g, Some err)
  | None => ({| jobs := jobs g; runNow := runNow g ++ [ID j] |}, None)
  end.

End gocron.

(* --------------------------------------------------------------------- *)
(** ** internal/scheduler.go                                              *)
(* --------------------------------------------------------------------- *)

(** Modelled from the spec: the [Schedule] struct is declared outside the
  files at hand.  The spec's data model gives it these five fields; the
  scheduler reads [Id], [Cron], [BackupId] and [ToRepositoryId]. *)
Module Schedule.
Record t := mk {
  Id : string;
  Cron : string;
  BackupId : string;
  ToRepositoryId : string;
  FromRepositoryId : string
}.
End Schedule.

(** Modelled from the spec: the [ChanMsg] struct is declared outside the
  files at hand; the scheduler fills in [Id], [Msg] and [Time]. *)
Module ChanMsg.
Record t := mk { Id : string; Msg : string; Time : Time.t }.
End ChanMsg.

(** [type Job struct].  [Ctx] is the address of the job's context in the
  context store; [Cancel] is the address of the context its
  [context.CancelFunc] cancels. *)
Module Job.
Record t := mk {
  Id : string;
  job : gocron.Job;
  Schedule : Schedule.t;
  Running : bool;
  Force : bool;
  Ctx : nat;
  Cancel : nat
}.

Definition set_Running (b : bool) (j : t) : t :=
  mk (Id j) (job j) (Schedule j) b (Force j) (Ctx j) (Cancel j).
Definition set_Force (b : bool) (j : t) : t :=
  mk (Id j) (job j) (Schedule j) (Running j) b (Ctx j) (Cancel j).
Definition set_Ctx (c : nat) (j : t) : t :=
  mk (Id j) (job j) (Schedule j) (Running j) (Force j) c (Cancel j).
Definition set_Cancel (c : nat) (j : t) : t :=
  mk (Id j) (job j) (Schedule j) (Running j) (Force j) (Ctx j) c.
End Job.

(** Modelled from the spec: [Settings] is declared outside the files at
  hand.  The scheduler reads [Config.Schedules] and calls
  [SetLastRun(id, text)], which by the spec records [text] as the last-run
  status of the job [id] (the empty text after a successful run). *)
Module Settings.
Record t := mk {
  Schedules : list Schedule.t;
  LastRun : gmap string string
}.

Definition SetLastRun (id text : string) (st : t) : t :=
  {| Schedules := Schedules st; LastRun := <[id := text]> (LastRun st) |}.
End Settings.

Module Sched.

(** What happens to the registry's memory, in program order:
    [Lock] and [Unlock] of [jmu], and every store into [s.Jobs]
    (the slice itself or a field of one of its elements). *)
Inductive MuEv := Lock | Unlock | Store.

Inductive Level := Debug | Info | Error.

Record LogEntry := mkLog { level : Level; text : string; keyvals : list string }.

(** [type Scheduler struct], with the parts of the process it reaches
    through pointers: the two channels (the messages sent on them so
    far), the settings, the logger's output, the store of cancellable
    contexts ([true] once cancelled), and the wall clock ([clock n] is
    what the [n]-th call of [time.Now] returns). *)
Record t := mk {
  Gocron : gocron.Scheduler;
  Jobs : list Job.t;
  jmu : list MuEv;
  settings : Settings.t;
  OutputCh : list ChanMsg.t;
  ErrorCh : list ChanMsg.t;
  logged : list LogEntry;
  contexts : list bool;
  clock : nat -> Time.t;
  ticks : nat
}.

Definition set_Gocron (g : gocron.Scheduler) (s : t) : t :=
  mk g (Jobs s) (jmu s) (settings s) (OutputCh s) (ErrorCh s) (logged s)
     (contexts s) (clock s) (ticks s).
Definition set_Jobs (js : list Job.t) (s : t) : t :=
  mk (Gocron s) js (jmu s) (settings s) (OutputCh s) (ErrorCh s) (logged s)
     (contexts s) (clock s) (ticks s).
Definition set_jmu (m : list MuEv) (s : t) : t :=
  mk (Gocron s) (Jobs s) m (settings s) (OutputCh s) (ErrorCh s) (logged s)
     (contexts s) (clock s) (ticks s).
Definition set_settings (st : Settings.t) (s : t) : t :=
  mk (Gocron s) (Jobs s) (jmu s) st (OutputCh s) (ErrorCh s) (logged s)
     (contexts s) (clock s) (ticks s).
Definition set_OutputCh (c : list ChanMsg.t) (s : t) : t :=
  mk (Gocron s) (Jobs s) (jmu s) (settings s) c (ErrorCh s) (logged s)
     (contexts s) (clock s) (ticks s).
Definition set_logged (l : list LogEntry) (s : t) : t :=
  mk (Gocron s) (Jobs s) (jmu s) (settings s) (OutputCh s) (ErrorCh s) l
     (contexts s) (clock s) (ticks s).
Definition set_contexts (c : list bool) (s : t) : t :=
  mk (Gocron s) (Jobs s) (jmu s) (settings s) (OutputCh s) (ErrorCh s) (logged s)
     c (clock s) (ticks s).
Definition set_ticks (n : nat) (s : t) : t :=
  mk (Gocron s) (Jobs s) (jmu s) (settings s) (OutputCh s) (ErrorCh s) (logged s)
     (contexts s) (clock s) n.

(** *** Primitive effects *)

Definition log (lv : Level) (msg : string) (kv : list string) (s : t) : t :=
  set_logged (logged s ++ [mkLog lv msg kv]) s.

(** [time.Now()] *)
Definition time_Now (s : t) : Time.t * t :=
  (clock s (ticks s), set_ticks (S (ticks s)) s).

(** [( *s.OutputCh) <- m] *)
Definition send_Output (m : ChanMsg.t) (s : t) : t :=
  set_OutputCh (OutputCh s ++ [m]) s.

(** [context.WithCancel(context.Background())]: a fresh live context. *)
Definition WithCancel (s : t) : nat * t :=
  (length (contexts s), set_contexts (contexts s ++ [false]) s).

(** Calling the [CancelFunc] of the context at address [c]. *)
Definition cancel (c : nat) (s : t) : t :=
  set_contexts (<[c := true]> (contexts s)) s.

Definition mu_Lock (s : t) : t := set_jmu (jmu s ++ [Lock]) s.
Definition mu_Unlock (s : t) : t := set_jmu (jmu s ++ [Unlock]) s.

(** [s.Jobs[i].f = v] *)
Definition store_Job (i : nat) (f : Job.t -> Job.t) (s : t) : t :=
  set_jmu (jmu s ++ [Store]) (set_Jobs (alter f i (Jobs s)) s).

(** [s.Jobs = js] *)
Definition store_Jobs (js : list Job.t) (s : t) : t :=
  set_jmu (jmu s ++ [Store]) (set_Jobs js s).

(** [for i, j := range s.Jobs { if j.Id == id { ...; break } }]:
    the first index whose job has this id, with a copy of the job. *)
Definition find_Id (id : string) (s : t) : option (nat * Job.t) :=
  list_find (fun j => Job.Id j = id) (Jobs s).

(** The same loop on [j.job.Name() == name]. *)
Definition find_Name (name : string) (s : t) : option (nat * Job.t) :=
  list_find (fun j => gocron.Name (Job.job j) = name) (Jobs s).

Definition running_true : string :=
  "{" +:+ dq +:+ "running" +:+ dq +:+ ": true}".
Definition running_false : string :=
  "{" +:+ dq +:+ "running" +:+ dq +:+ ": false}".

(** *** The methods *)

(** [func (s *Scheduler) RunJobById(id string)] *)
Definition RunJobById (lib : gocron.Lib) (id : string) (s : t) : t :=
  match find_Id id s with
  | Some (i, j) =>
      let s := log Info "Running job manually" ["id"; id] s in
      let s := store_Job i (Job.set_Force true) s in
      let '(g, err) := gocron.RunNow lib (Job.job j) (Gocron s) in
      let s := set_Gocron g s in
      match err with
      | Some e => log Error "Error running job manually" ["id"; id; "err"; e] s
      | None => s
      end
  | None => s
  end.

(** [func (s *Scheduler) StopJobById(id string)] *)
Definition StopJobById (id : string) (s : t) : t :=
  match find_Id id s with
  | Some (_, j) =>
      let '(now, s) := time_Now s in
      let s := send_Output
                 (ChanMsg.mk (Schedule.Id (Job.Schedule j)) running_false now) s in
      cancel (Job.Cancel j) s
  | None => s
  end.

(** [func (s *Scheduler) DeleteRunningJob(id string)] *)
Definition DeleteRunningJob (id : string) (s : t) : t :=
  let s := mu_Lock s in
  let s := match find_Id id s with
           | Some (i, _) =>
               let s := log Debug "Stopping running job" ["id"; id] s in
               let s := store_Job i (Job.set_Running false) s in
               store_Job i (Job.set_Force false) s
           | None => s
           end in
  mu_Unlock s.

(** [func (s *Scheduler) FindJobById(id string) *Job]: a copy. *)
Definition FindJobById (id : string) (s : t) : option Job.t * t :=
  let s := mu_Lock s in
  let r := snd <$> find_Id id s in
  (r, mu_Unlock s).

(** [func (s *Scheduler) SetRunningJob(id string)] *)
Definition SetRunningJob (id : string) (s : t) : t :=
  let s := mu_Lock s in
  let s := match find_Id id s with
           | Some (i, _) =>
               let s := store_Job i (Job.set_Running true) s in
               log Debug "Setting forced running job" ["id"; id] s
           | None => s
           end in
  mu_Unlock s.

(** [func (s *Scheduler) RecreateCtx(name string)] *)
Definition RecreateCtx (name : string) (s : t) : t :=
  match find_Name name s with
  | Some (i, _) =>
      let s := log Debug "Recreating context for job" ["id"; name] s in
      let '(ctx, s) := WithCancel s in
      let s := store_Job i (Job.set_Ctx ctx) s in
      store_Job i (Job.set_Cancel ctx) s
  | None => s
  end.

(** [func (s *Scheduler) GetRunningJobs() []Job] *)
Definition GetRunningJobs (s : t) : list Job.t * t :=
  let s := mu_Lock s in
  (filter (fun j => Job.Running j = true) (Jobs s), mu_Unlock s).

(** *** The event listeners attached to every job

    gocron calls them with the name of the job, which is the [Id] of the
    schedule it was created for. *)

(** [gocron.BeforeJobRuns(func(jobID, jobName))] *)
Definition BeforeJobRuns (jobName : string) (s : t) : t :=
  let '(now, s) := time_Now s in
  let s := send_Output (ChanMsg.mk jobName running_true now) s in
  let s := log Debug "before job run" ["id"; jobName] s in
  SetRunningJob jobName s.

(** [gocron.AfterJobRuns(func(jobID, jobName))] *)
Definition AfterJobRuns (jobName : string) (s : t) : t :=
  let '(now, s) := time_Now s in
  let s := send_Output (ChanMsg.mk jobName running_false now) s in
  let s := log Debug "after job run" ["res"; "success"; "id"; jobName] s in
  let s := DeleteRunningJob jobName s in
  let s := RecreateCtx jobName s in
  set_settings (Settings.SetLastRun jobName EmptyString (settings s)) s.

(** [gocron.AfterJobRunsWithError(func(jobID, jobName, err))];
    [err] is the text [err.Error()] of the error the run ended in. *)
Definition AfterJobRunsWithError (jobName : string) (err : string) (s : t) : t :=
  let '(now, s) := time_Now s in
  let s := send_Output (ChanMsg.mk jobName running_false now) s in
  let s := log Debug "after job run" ["res"; "error"; "id"; jobName; "err"; err] s in
  let s := DeleteRunningJob jobName s in
  let s := RecreateCtx jobName s in
  set_settings (Settings.SetLastRun jobName err (settings s)) s.

(** *** Rebuilding the registry *)

(** The job definition chosen for a schedule at time [now]: a one-time job
    a thousand years ahead, replaced by a cron job when the schedule has a
    cron expression. *)
Definition jobDef (now : Time.t) (schedule : Schedule.t) : gocron.JobDefinition :=
  let t := Time.AddDate_years 1000 now in
  let jobDef := gocron.OneTimeJob t in
  if decide (Schedule.Cron schedule <> EmptyString)
  then gocron.CronJob (Schedule.Cron schedule) false
  else jobDef.

Definition jobTags (schedule : Schedule.t) : list string :=
  [ "backup:" +:+ Schedule.BackupId schedule;
    "repository:" +:+ Schedule.ToRepositoryId schedule;
    "fromrepository:" +:+ Schedule.ToRepositoryId schedule ].

(** One turn of the loop over [config.Schedules]. *)
Definition reschedule_one (lib : gocron.Lib) (s : t) (schedule : Schedule.t) : t :=
  let '(now, s) := time_Now s in
  let def := jobDef now schedule in
  match gocron.NewJob lib def (Schedule.Id schedule) (jobTags schedule) (Gocron s) with
  | (_, inr err) =>
      (* continue *)
      log Error "Error creating Job" ["err"; err] s
  | (g, inl j) =>
      let s := set_Gocron g s in
      let '(ctx, s) := WithCancel s in
      store_Jobs
        (Jobs s ++ [ {| Job.Id := Schedule.Id schedule;
                        Job.job := j;
                        Job.Schedule := schedule;
                        Job.Running := false;
                        Job.Force := false;
                        Job.Ctx := ctx;
                        Job.Cancel := ctx |} ]) s
  end.

(** [func (s *Scheduler) RescheduleBackups()] *)
Definition RescheduleBackups (lib : gocron.Lib) (s : t) : t :=
  let s := store_Jobs [] s in
  let s := log Info "Rescheduling backups" [] s in
  let config := Settings.Schedules (settings s) in
  foldl (reschedule_one lib) s config.

(** *** Lock discipline of a run *)

(** [disciplined held evs]: every store among [evs] happens while [jmu] is
    held, [held] telling whether it is at the start. *)
Fixpoint disciplined (held : bool) (evs : list MuEv) : bool :=
  match evs with
  | [] => true
  | Lock :: evs => disciplined true evs
  | Unlock :: evs => disciplined false evs
  | Store :: evs => held && disciplined held evs
  end.

(** The events a method adds when run from [s]. *)
Definition events_of (f : t -> t) (s : t) : list MuEv :=
  drop (length (jmu s)) (jmu (f s)).

(** *** Notions used to state what a rebuild does *)

(** The verdict of gocron on what the [k]-th turn of a loop started from
    [s] asks it to create for [schedule]. *)
Definition attempt (lib : gocron.Lib) (s : t) (k : nat) (schedule : Schedule.t) : error :=
  gocron.NewJob_err lib (jobDef (clock s (ticks s + k)) schedule) (Schedule.Id schedule).

(** The schedules of [l] for which gocron creates the job, with the
    number of their turn; and the errors of the others. *)
Definition accepted (lib : gocron.Lib) (s : t) (l : list Schedule.t) : list (nat * Schedule.t) :=
  filter (fun p => attempt lib s (fst p) (snd p) = None) (imap pair l).

Definition refused (lib : gocron.Lib) (s : t) (l : list Schedule.t) : list string :=
  omap (fun p => attempt lib s (fst p) (snd p)) (imap pair l).

(** [j] is the job that turn [k] builds for [schedule]. *)
Definition built_for (s : t) (k : nat) (schedule : Schedule.t) (j : Job.t) : Prop :=
  Job.Id j = Schedule.Id schedule
  /\ Job.Schedule j = schedule
  /\ Job.Running j = false
  /\ Job.Force j = false
  /\ gocron.Name (Job.job j) = Schedule.Id schedule
  /\ gocron.Def (Job.job j) = jobDef (clock s (ticks s + k)) schedule.

Definition creation_error (err : string) : LogEntry :=
  mkLog Error "Error creating Job" ["err"; err].

(** *** Notions used to state what the other methods keep *)

(** What a job is, as opposed to the state it is in. *)
Definition identity (j : Job.t) : string * gocron.Job * Schedule.t :=
  (Job.Id j, Job.job j, Job.Schedule j).

(** Every job goes by the name of its gocron job, and its two context
    fields are the address of one context of the store. *)
Definition well_formed (s : t) : Prop :=
  Forall (fun j => gocron.Name (Job.job j) = Job.Id j
                   /\ Job.Cancel j = Job.Ctx j
                   /\ (Job.Ctx j < length (contexts s))%nat) (Jobs s).

End Sched.

(* --------------------------------------------------------------------- *)
(** ** The server file: viewer sessions                                   *)
(* --------------------------------------------------------------------- *)

(** Modelled from the spec: the [WsMsg] struct is declared outside the
    files at hand; the event loop fills in [Id], [Out] and [Err]. *)
Module WsMsg.
Record t := mk { Id : string; Out : string; Err : string }.
End WsMsg.

Module Session.

(** [funk.Find(arr, pred)]: the first element satisfying [pred], or nil. *)
Definition funk_Find (id : string) (arr : list WsMsg.t) : option WsMsg.t :=
  snd <$> list_find (fun arrm => WsMsg.Id arrm = id) arr.

(** The update of a per-id table by a record [m]:
<<
    if m.Id != "" {
      if funk.Find(outs, ...) == nil { outs = append(outs, m) }
      else { for i, arrm := range outs { if arrm.Id == m.Id { outs[i] = m; break } } }
    }
>> *)
Definition upsert (m : WsMsg.t) (outs : list WsMsg.t) : list WsMsg.t :=
  if decide (WsMsg.Id m <> EmptyString) then
    match funk_Find (WsMsg.Id m) outs with
    | None => outs ++ [m]
    | Some _ =>
        match list_find (fun arrm => WsMsg.Id arrm = WsMsg.Id m) outs with
        | Some (i, _) => <[i := m]> outs
        | None => outs
        end
    end
  else outs.

Definition keep_Out (o : WsMsg.t) : bool :=
  negb (String.eqb (WsMsg.Out o) EmptyString) && negb (String.eqb (WsMsg.Out o) "{}").

Definition keep_Err (o : WsMsg.t) : bool :=
  negb (String.eqb (WsMsg.Err o) EmptyString) && negb (String.eqb (WsMsg.Err o) "{}").

(** [funk.Filter(arr, pred)] *)
Definition funk_Filter (pred : WsMsg.t -> bool) (arr : list WsMsg.t) : list WsMsg.t :=
  List.filter pred arr.

(** The two tables of one session. *)
Record t := mk { outs : list WsMsg.t; errs : list WsMsg.t }.

Definition init : t := {| outs := []; errs := [] |}.

Inductive Event :=
| FromOutput (o : ChanMsg.t)     (* case o := <-*outputChan *)
| FromError (e : ChanMsg.t).     (* case e := <-*errorChan *)

(** What one turn of the event loop hands to [json.Marshal]; the session
    then sends the text it returns on [broadcast], or logs the error. *)
Definition on_event (ev : Event) (st : t) : t * list WsMsg.t :=
  match ev with
  | FromOutput o =>
      let m := WsMsg.mk (ChanMsg.Id o) (ChanMsg.Msg o) EmptyString in
      let outs := upsert m (outs st) in
      ({| outs := outs; errs := errs st |}, funk_Filter keep_Out outs)
  | FromError e =>
      let m := WsMsg.mk (ChanMsg.Id e) EmptyString (ChanMsg.Msg e) in
      let errs := upsert m (errs st) in
      ({| outs := outs st; errs := errs |}, funk_Filter keep_Err errs)
  end.

(** The session after a sequence of events, and the slices it has
    serialized, oldest first. *)
Fixpoint run (evs : list Event) (st : t) : t * list (list WsMsg.t) :=
  match evs with
  | [] => (st, [])
  | ev :: evs =>
      let '(st, b) := on_event ev st in
      let '(st, bs) := run evs st in
      (st, b :: bs)
  end.

(** The entries a table holds for an id. *)
Definition entries (id : string) (tbl : list WsMsg.t) : list WsMsg.t :=
  List.filter (fun m => String.eqb (WsMsg.Id m) id) tbl.

(** The success table holds no error text, the error table no success
    payload. *)
Definition one_sided (st : t) : Prop :=
  Forall (fun m => WsMsg.Err m = EmptyString) (outs st)
  /\ Forall (fun m => WsMsg.Out m = EmptyString) (errs st).

(** A table is as the loop keeps it: one entry per id, none without id. *)
Definition table_ok (tbl : list WsMsg.t) : Prop :=
  NoDup (WsMsg.Id <$> tbl) /\ Forall (fun x => WsMsg.Id x <> EmptyString) tbl.

End Session.

(* --------------------------------------------------------------------- *)
(** ** The server file: the hub and the goroutines around it              *)
(* --------------------------------------------------------------------- *)

Module Hub.

(** A [*websocket.Conn], as its address. *)
Definition Conn := nat.

(** [type client struct]; [LastSeen] in nanoseconds of the process clock. *)
Record client := mkClient { LastSeen : Z }.

(** The three channels [register], [broadcast], [unregister]; none has a
    buffer. *)
Inductive Chan := register | broadcast | unregister.

(** A value on its way through one of them. *)
Inductive Msg :=
| ToRegister (connection : Conn)
| ToBroadcast (message : string)
| ToUnregister (connection : Conn).

Definition chan_of (m : Msg) : Chan :=
  match m with
  | ToRegister _ => register
  | ToBroadcast _ => broadcast
  | ToUnregister _ => unregister
  end.

(** What is written to a connection. *)
Inductive Frame := TextMessage (payload : string) | CloseMessage.

(** Where [runHub] stands. *)
Inductive HubPc :=
| HSelect
    (* in the select over the three channels *)
| HRange (message : string) (todo : list Conn)
    (* in [for connection := range clients], [todo] still to visit *)
| HSendUnregister (message : string) (connection : Conn) (todo : list Conn)
    (* the write failed; at [unregister <- connection] *)
| HClose (message : string) (connection : Conn) (todo : list Conn).
    (* the send went through; about to write the close frame and Close *)

(** Where [cleanClients] stands. *)
Inductive SweepPc :=
| SwSleep
| SwRange (todo : list (Conn * client))
| SwSend (connection : Conn) (todo : list (Conn * client)).
    (* at [unregister <- connection] *)

(** Where the websocket handler of one connection stands.  The handler
    is [register <- c; go handlePing(c); for { select { ... } }]: the loop
    has no return and its [break]s leave the select only, so the deferred
    function is not run by any step of the handler. *)
Inductive SessPc :=
| SRegister
    (* at [register <- c] *)
| SSelect (st : Session.t)
    (* in the select over the two event channels *)
| SBroadcast (j : string) (st : Session.t)
    (* at [broadcast <- string(j)] *)
| SUnregister
    (* in the deferred function, at [unregister <- c] *)
| SClosed.
    (* after [c.Close()] *)

(** The handler is inside its [for { select { ... } }]. *)
Definition in_loop (p : SessPc) : bool :=
  match p with
  | SSelect _ | SBroadcast _ _ => true
  | _ => false
  end.

(** Where a goroutine started by [handlePing] after a read stands; [c] is
    the connection of the handler that started it. *)
Inductive PingPc :=
| PFound (c connection : Conn) (client : client)
    (* its range has reached a client with the address of [c]; before
       [c.LastSeen = time.Now()] *)
| PStore (c connection : Conn) (stamped : client).
    (* before [clients[connection] = c] *)

(** The goroutines. *)
Inductive Actor :=
| AHub
| ASweeper
| ASession (c : Conn)
| APing (c : Conn).

(** The process: the package variable [clients], the goroutines, the
    clock, and the connections (their remote address, what was written to
    them, which are closed, and on which a write fails).  [RunServer]
    starts one [runHub] and one [cleanClients]; every accepted connection
    gets a handler, which starts a [handlePing] once it is registered;
    [refreshers] are the goroutines the ping handlers have started and
    that have not finished.  No goroutine takes a lock: what one of them
    does between two accesses to [clients] or to a channel is one step,
    and the steps of all of them interleave. *)
Record World := mkWorld {
  clients : gmap Conn client;
  hub : HubPc;
  sweeper : SweepPc;
  sessions : gmap Conn SessPc;
  pingers : gset Conn;
  now : Z;
  RemoteAddr : Conn -> string;
  wire : list (Conn * Frame);
  closed : gset Conn;
  broken : gset Conn;
  refreshers : list PingPc
}.

Definition with_clients (x : gmap Conn client) (w : World) : World :=
  mkWorld x (hub w) (sweeper w) (sessions w) (pingers w) (now w) (RemoteAddr w)
          (wire w) (closed w) (broken w) (refreshers w).
Definition with_hub (x : HubPc) (w : World) : World :=
  mkWorld (clients w) x (sweeper w) (sessions w) (pingers w) (now w) (RemoteAddr w)
          (wire w) (closed w) (broken w) (refreshers w).
Definition with_sweeper (x : SweepPc) (w : World) : World :=
  mkWorld (clients w) (hub w) x (sessions w) (pingers w) (now w) (RemoteAddr w)
          (wire w) (closed w) (broken w) (refreshers w).
Definition with_sessions (x : gmap Conn SessPc) (w : World) : World :=
  mkWorld (clients w) (hub w) (sweeper w) x (pingers w) (now w) (RemoteAddr w)
          (wire w) (closed w) (broken w) (refreshers w).
Definition with_pingers (x : gset Conn) (w : World) : World :=
  mkWorld (clients w) (hub w) (sweeper w) (sessions w) x (now w) (RemoteAddr w)
          (wire w) (closed w) (broken w) (refreshers w).
Definition with_now (x : Z) (w : World) : World :=
  mkWorld (clients w) (hub w) (sweeper w) (sessions w) (pingers w) x (RemoteAddr w)
          (wire w) (closed w) (broken w) (refreshers w).
Definition with_wire (x : list (Conn * Frame)) (w : World) : World :=
  mkWorld (clients w) (hub w) (sweeper w) (sessions w) (pingers w) (now w) (RemoteAddr w)
          x (closed w) (broken w) (refreshers w).
Definition with_closed (x : gset Conn) (w : World) : World :=
  mkWorld (clients w) (hub w) (sweeper w) (sessions w) (pingers w) (now w) (RemoteAddr w)
          (wire w) x (broken w) (refreshers w).
Definition with_refreshers (x : list PingPc) (w : World) : World :=
  mkWorld (clients w) (hub w) (sweeper w) (sessions w) (pingers w) (now w) (RemoteAddr w)
          (wire w) (closed w) (broken w) x.

(** *** runHub *)

(** The effect on [clients] of the select case taken for [m]:
    [clients[connection] = client{LastSeen: time.Now()}] on [register],
    [delete(clients, connection)] on [unregister]. *)
Definition hub_recv (m : Msg) (t : Z) (cl : gmap Conn client) : gmap Conn client :=
  match m with
  | ToRegister connection => <[connection := mkClient t]> cl
  | ToBroadcast _ => cl
  | ToUnregister connection => delete connection cl
  end.

(** Where the hub goes after that case; [order] is the order in which
    the range loop will visit the connections. *)
Definition hub_next (m : Msg) (order : list Conn) : HubPc :=
  match m with
  | ToBroadcast message => HRange message order
  | _ => HSelect
  end.

(** [connection.WriteMessage] returns an error on a connection that is
    closed or broken. *)
Definition write_fails (connection : Conn) (w : World) : bool :=
  bool_decide (connection ∈ closed w ∪ broken w).

(** One step of the hub on its own. *)
Definition hub_internal (w : World) : option World :=
  match hub w with
  | HSelect => None
  | HRange message [] => Some (with_hub HSelect w)
  | HRange message (connection :: todo) =>
      if write_fails connection w
      then Some (with_hub (HSendUnregister message connection todo) w)
      else Some (with_hub (HRange message todo)
                   (with_wire (wire w ++ [(connection, TextMessage message)]) w))
  | HSendUnregister _ _ _ => None
  | HClose message connection todo =>
      let w := if write_fails connection w then w
               else with_wire (wire w ++ [(connection, CloseMessage)]) w in
      Some (with_hub (HRange message todo)
              (with_closed ({[connection]} ∪ closed w) w))
  end.

(** *** cleanClients *)

Definition second : Z := 1000000000.

Definition sweeper_internal (order : list (Conn * client)) (w : World) : option World :=
  match sweeper w with
  | SwSleep => Some (with_sweeper (SwRange order) w)
  | SwRange [] => Some (with_sweeper SwSleep w)
  | SwRange ((connection, client) :: todo) =>
      if (now w - LastSeen client >? 2 * second)%Z
      then Some (with_sweeper (SwSend connection todo) w)
      else Some (with_sweeper (SwRange todo) w)
  | SwSend _ _ => None
  end.

(** *** handlePing *)

(** The goroutine started after a successful [c.ReadMessage()], run from
    its start to its end with no other goroutine in between: the first
    connection of the range with the remote address of [c] gets
    [LastSeen = time.Now()]. *)
Definition refresh (c : Conn) (order : list (Conn * client)) (w : World) : World :=
  match list_find (fun kv => RemoteAddr w (fst kv) = RemoteAddr w c) order with
  | Some (_, (connection, client)) =>
      let c := mkClient (now w) in
      with_clients (<[connection := c]> (clients w)) w
  | None => w
  end.

(** *** The websocket handler *)

(** The handler of [c] taking an event from one of the two channels;
    [Marshal] is [json.Marshal] on a slice of [WsMsg]. *)
Definition session_event (Marshal : list WsMsg.t -> string + string)
    (ev : Session.Event) (p : SessPc) : option SessPc :=
  match p with
  | SSelect st =>
      let '(st, l) := Session.on_event ev st in
      match Marshal l with
      | inl j => Some (SBroadcast j st)
      | inr _ => Some (SSelect st)
      end
  | _ => None
  end.

(** The send each goroutine is blocked in, if any. *)
Definition offers (w : World) (a : Actor) : option Msg :=
  match a with
  | AHub =>
      match hub w with
      | HSendUnregister _ connection _ => Some (ToUnregister connection)
      | _ => None
      end
  | ASweeper =>
      match sweeper w with
      | SwSend connection _ => Some (ToUnregister connection)
      | _ => None
      end
  | ASession c =>
      match sessions w !! c with
      | Some SRegister => Some (ToRegister c)
      | Some (SBroadcast j _) => Some (ToBroadcast j)
      | Some SUnregister => Some (ToUnregister c)
      | _ => None
      end
  | APing _ => None
  end.

(** The sender once its send has gone through. *)
Definition sent (a : Actor) (w : World) : World :=
  match a with
  | AHub =>
      match hub w with
      | HSendUnregister message connection todo =>
          with_hub (HClose message connection todo) w
      | _ => w
      end
  | ASweeper =>
      match sweeper w with
      | SwSend _ todo => with_sweeper (SwRange todo) w
      | _ => w
      end
  | ASession c =>
      match sessions w !! c with
      | Some SRegister =>
          (* go handlePing(c), then the event loop *)
          with_pingers ({[c]} ∪ pingers w)
            (with_sessions (<[c := SSelect Session.init]> (sessions w)) w)
      | Some (SBroadcast _ st) =>
          with_sessions (<[c := SSelect st]> (sessions w)) w
      | Some SUnregister =>
          with_closed ({[c]} ∪ closed w)
            (with_sessions (<[c := SClosed]> (sessions w)) w)
      | _ => w
      end
  | APing _ => w
  end.

(** The goroutine blocked in a receive on a channel: only [runHub]
    receives from the three channels, in its select. *)
Inductive receiving (w : World) : Actor -> Chan -> Prop :=
| receiving_hub ch : hub w = HSelect -> receiving w AHub ch.

Inductive Label :=
| LSync (sender receiver : Actor) (m : Msg)
| LInternal (a : Actor)
| LAccept (c : Conn)
| LEvent (c : Conn) (ev : Session.Event)
| LTick.

(** One step of the process. *)
Inductive step (Marshal : list WsMsg.t -> string + string) :
    World -> Label -> World -> Prop :=
| step_sync w a m order :
    (* a send meets the receive of the hub's select *)
    offers w a = Some m ->
    receiving w AHub (chan_of m) ->
    order ≡ₚ elements (dom (hub_recv m (now w) (clients w))) ->
    step Marshal w (LSync a AHub m)
      (with_hub (hub_next m order)
         (with_clients (hub_recv m (now w) (clients w)) (sent a w)))
| step_hub w w' :
    hub_internal w = Some w' ->
    step Marshal w (LInternal AHub) w'
| step_sweeper w order w' :
    order ≡ₚ map_to_list (clients w) ->
    sweeper_internal order w = Some w' ->
    step Marshal w (LInternal ASweeper) w'
| step_ping_find w c order i connection client :
    (* [c.ReadMessage()] returned a message, and the range of the goroutine
       started for it reaches a client with the address of [c]: that
       client is in the map at this moment, first of the matching ones in
       the order of this range *)
    c ∈ pingers w ->
    order ≡ₚ map_to_list (clients w) ->
    list_find (fun kv => RemoteAddr w (fst kv) = RemoteAddr w c) order
    = Some (i, (connection, client)) ->
    step Marshal w (LInternal (APing c))
      (with_refreshers (refreshers w ++ [PFound c connection client]) w)
| step_ping_stamp w c connection client l1 l2 :
    (* [c := client; c.LastSeen = time.Now()] *)
    refreshers w = l1 ++ PFound c connection client :: l2 ->
    step Marshal w (LInternal (APing c))
      (with_refreshers (l1 ++ PStore c connection (mkClient (now w)) :: l2) w)
| step_ping_store w c connection stamped l1 l2 :
    (* [clients[connection] = c], and the goroutine ends *)
    refreshers w = l1 ++ PStore c connection stamped :: l2 ->
    step Marshal w (LInternal (APing c))
      (with_refreshers (l1 ++ l2)
         (with_clients (<[connection := stamped]> (clients w)) w))
| step_accept w c :
    (* a viewer connects: a new handler starts *)
    sessions w !! c = None ->
    step Marshal w (LAccept c) (with_sessions (<[c := SRegister]> (sessions w)) w)
| step_event w c ev p p' :
    sessions w !! c = Some p ->
    session_event Marshal ev p = Some p' ->
    step Marshal w (LEvent c ev) (with_sessions (<[c := p']> (sessions w)) w)
| step_tick w d :
    (0 <= d)%Z ->
    step Marshal w LTick (with_now (now w + d)%Z w).

(** Executions. *)
Inductive steps (Marshal : list WsMsg.t -> string + string) :
    World -> World -> Prop :=
| steps_refl w : steps Marshal w w
| steps_step w l w' w'' :
    step Marshal w l w' -> steps Marshal w' w'' -> steps Marshal w w''.

(** The text frames written to a connection so far. *)
Definition received (c : Conn) (w : World) : list string :=
  omap (fun cf => match cf with
                  | (c', TextMessage payload) =>
                      if decide (c' = c) then Some payload else None
                  | _ => None
                  end) (wire w).

(** *** Runs of one goroutine *)

(** The hub on its own for at most [n] steps, as far as it gets. *)
Fixpoint hub_run (n : nat) (w : World) : World :=
  match n with
  | O => w
  | S n =>
      match hub_internal w with
      | Some w' => hub_run n w'
      | None => w
      end
  end.


(** The text frames of one payload for a list of connections. *)
Definition frames (message : string) (l : list Conn) : list (Conn * Frame) :=
  (fun c => (c, TextMessage message)) <$> l.

End Hub.

(* --------------------------------------------------------------------- *)
(** ** app.go                                                             *)
(* --------------------------------------------------------------------- *)

Module App.

(** The two images [toggleSysTrayIcon] reads. *)
Inductive Icon := default_icon | active_icon.

(** The task [toggleSysTrayIcon] registers to run every 500 ms, on the
    flag [def] it closes over: [running] is [len(a.scheduler.RunningJobs)];
    the result is the icon handed to [systray.SetIcon], if any, and the
    flag afterwards. *)
Definition toggle (running : nat) (def : bool) : option Icon * bool :=
  if def then
    ((if (0 <? running)%nat then Some active_icon else None), false)
  else (Some default_icon, true).

(** The flag and the icon of the tray after the task ran once for each
    element of [runs]. *)
Fixpoint toggles (runs : list nat) (def : bool) (shown : Icon) : bool * Icon :=
  match runs with
  | [] => (def, shown)
  | running :: runs =>
      let '(set, def) := toggle running def in
      toggles runs def (default shown set)
  end.

(** Whether the last of the runs found a job running. *)
Definition found_running (runs : list nat) : bool :=
  match last runs with
  | Some running => (0 <? running)%nat
  | None => false
  end.

End App.

(* --------------------------------------------------------------------- *)
(** ** Notions used to state the properties, and sample inputs            *)
(* --------------------------------------------------------------------- *)

Module Samples.

(** A process whose [Start] fails (and so does its [Wait]). *)
Definition os_no_restic : Restic.OS :=
  {| Restic.Environ := ["HOME=/root"];
     Restic.run := fun _ _ _ =>
       {| Restic.start_err := Some "exec: no such file";
          Restic.wait_err := Some "exec: not started";
          Restic.sout := EmptyString;
          Restic.serr := EmptyString |} |}.

Definition repo : Restic.Repository :=
  {| Restic.Path := "/srv/repo"; Restic.Password := "secret" |}.

Definition restic0 : Restic.t :=
  {| Restic.errb := EmptyString; Restic.outb := EmptyString; Restic.console := [] |}.

(** A gocron that refuses exactly the crontab [bad]. *)
Definition lib_rejecting (bad : string) : gocron.Lib :=
  {| gocron.NewJob_err := fun def _ =>
       match def with
       | gocron.CronJob crontab _ =>
           if String.eqb crontab bad then Some "gocron: crontab parse failure" else None
       | gocron.OneTimeJob _ => None
       end;
     gocron.RunNow_err := fun _ _ => None |}.

Definition noon : Time.t :=
  {| Time.year := 2024; Time.month := 2; Time.day := 29; Time.nanos := 43200000000000 |}.

Definition sched (id cron : string) : Schedule.t :=
  {| Schedule.Id := id; Schedule.Cron := cron; Schedule.BackupId := "b";
     Schedule.ToRepositoryId := "r"; Schedule.FromRepositoryId := EmptyString |}.

Definition gjob (n : nat) (id cron : string) : gocron.Job :=
  {| gocron.ID := n; gocron.Name := id;
     gocron.Def := gocron.CronJob cron false;
     gocron.Tags := Sched.jobTags (sched id cron) |}.

Definition job (n : nat) (id cron : string) (running : bool) : Job.t :=
  {| Job.Id := id; Job.job := gjob n id cron; Job.Schedule := sched id cron;
     Job.Running := running; Job.Force := false; Job.Ctx := n; Job.Cancel := n |}.

(** A scheduler holding the given jobs (the [n]-th registered as the
    [n]-th gocron job with the [n]-th context), configured with the given
    schedules. *)
Definition scheduler (js : list Job.t) (schedules : list Schedule.t) : Sched.t :=
  {| Sched.Gocron := {| gocron.jobs := Job.job <$> js; gocron.runNow := [] |};
     Sched.Jobs := js;
     Sched.jmu := [];
     Sched.settings := {| Settings.Schedules := schedules; Settings.LastRun := ∅ |};
     Sched.OutputCh := [];
     Sched.ErrorCh := [];
     Sched.logged := [];
     Sched.contexts := (fun _ => false) <$> js;
     Sched.clock := fun _ => noon;
     Sched.ticks := 0 |}.

(** A status event. *)
Definition ev (id msg : string) : ChanMsg.t :=
  {| ChanMsg.Id := id; ChanMsg.Msg := msg; ChanMsg.Time := noon |}.

(** One idle job "s1"; one running job "s2". *)
Definition idle_s1 : Sched.t := scheduler [job 0 "s1" "*/5 * * * *" false] [].
Definition running_s2 : Sched.t := scheduler [job 0 "s2" "*/5 * * * *" true] [].

(** The job "s1" with its schedule in the configuration. *)
Definition configured_s1 : Sched.t :=
  scheduler [job 0 "s1" "*/5 * * * *" false] [sched "s1" "*/5 * * * *"].

(** A registry holding the job "old", about to be rebuilt from a
    configuration whose only schedule has a crontab gocron refuses. *)
Definition stale_one_bad : Sched.t :=
  scheduler [job 0 "old" "0 3 * * *" false] [sched "s1" "bad"].

(** The same registry, about to be rebuilt from three schedules: one
    refused, one with a cron expression, one without. *)
Definition stale_three : Sched.t :=
  scheduler [job 0 "old" "0 3 * * *" false]
    [sched "s1" "bad"; sched "s2" "*/5 * * * *"; sched "s3" EmptyString].

(** A serializer for the samples, whose texts need no escaping. *)
Definition field (k v : string) : string := dq +:+ k +:+ dq +:+ ":" +:+ dq +:+ v +:+ dq.

Definition object (m : WsMsg.t) : string :=
  "{" +:+ field "id" (WsMsg.Id m) +:+ "," +:+ field "out" (WsMsg.Out m)
      +:+ "," +:+ field "err" (WsMsg.Err m) +:+ "}".

Definition Marshal (l : list WsMsg.t) : string + string :=
  inl ("[" +:+ String.concat "," (object <$> l) +:+ "]").

Definition addr (c : Hub.Conn) : string :=
  match c with
  | 1%nat => "10.0.0.1:50001"
  | 2%nat => "10.0.0.2:50002"
  | _ => "10.0.0.3:50003"
  end.

Definition viewers : gmap Hub.Conn Hub.client :=
  <[1%nat := Hub.mkClient 0]> (<[2%nat := Hub.mkClient 0]> (<[3%nat := Hub.mkClient 0]> ∅)).

(** Three viewers are registered and the write to the first is bound to
    fail; the handler of the first is about to send a payload on
    [broadcast], and the hub waits in its select. *)
Definition three_viewers : Hub.World :=
  {| Hub.clients := viewers;
     Hub.hub := Hub.HSelect;
     Hub.sweeper := Hub.SwSleep;
     Hub.sessions :=
       <[1%nat := Hub.SBroadcast "[]" Session.init]>
         (<[2%nat := Hub.SSelect Session.init]>
            (<[3%nat := Hub.SSelect Session.init]> ∅));
     Hub.pingers := {[1%nat; 2%nat; 3%nat]};
     Hub.now := 0;
     Hub.RemoteAddr := addr;
     Hub.wire := [];
     Hub.closed := ∅;
     Hub.broken := {[1%nat]};
     Hub.refreshers := [] |}.

(** The hub has taken the payload and ranges over the viewers, the first
    first. *)
Definition ranging : Hub.World :=
  Hub.with_hub (Hub.HRange "[]" [1; 2; 3]%nat)
    (Hub.with_sessions (<[1%nat := Hub.SSelect Session.init]> (Hub.sessions three_viewers))
       three_viewers).

(** The write to the first viewer has failed. *)
Definition blocked : Hub.World :=
  Hub.with_hub (Hub.HSendUnregister "[]" 1%nat [2; 3]%nat) ranging.

(** One viewer, last seen five seconds ago, whose handler reads pings. *)
Definition one_viewer : Hub.World :=
  {| Hub.clients := <[1%nat := Hub.mkClient 0]> ∅;
     Hub.hub := Hub.HSelect;
     Hub.sweeper := Hub.SwSleep;
     Hub.sessions := <[1%nat := Hub.SSelect Session.init]> ∅;
     Hub.pingers := {[1%nat]};
     Hub.now := (5 * Hub.second)%Z;
     Hub.RemoteAddr := addr;
     Hub.wire := [];
     Hub.closed := ∅;
     Hub.broken := ∅;
     Hub.refreshers := [] |}.

(** A second viewer has connected; its handler is at [register <- c]. *)
Definition second_viewer_accepted : Hub.World :=
  Hub.with_sessions (<[2%nat := Hub.SRegister]> (Hub.sessions one_viewer)) one_viewer.

(** The hub has taken that send. *)
Definition second_viewer_registered : Hub.World :=
  Hub.with_hub Hub.HSelect
    (Hub.with_clients (<[2%nat := Hub.mkClient (5 * Hub.second)]> (Hub.clients one_viewer))
       (Hub.with_pingers ({[2%nat]} ∪ Hub.pingers one_viewer)
          (Hub.with_sessions
             (<[2%nat := Hub.SSelect Session.init]> (Hub.sessions second_viewer_accepted))
             second_viewer_accepted))).

(** A ping of that viewer racing with its eviction.  The goroutine
    started for the ping has found the entry of the viewer; *)
Definition race_found : Hub.World :=
  Hub.with_refreshers [Hub.PFound 1%nat 1%nat (Hub.mkClient 0)] one_viewer.

(** it has taken the time; *)
Definition race_stamped : Hub.World :=
  Hub.with_refreshers [Hub.PStore 1%nat 1%nat (Hub.mkClient (5 * Hub.second))] race_found.

(** the sweeper wakes up, *)
Definition race_sweeping : Hub.World :=
  Hub.with_sweeper (Hub.SwRange [(1%nat, Hub.mkClient 0)]) race_stamped.

(** finds the viewer stale and stands at its send on [unregister]; *)
Definition race_sending : Hub.World :=
  Hub.with_sweeper (Hub.SwSend 1%nat []) race_sweeping.

(** the hub takes it and deletes the viewer; *)
Definition race_removed : Hub.World :=
  Hub.with_sweeper (Hub.SwRange []) (Hub.with_clients ∅ race_sending).

(** the goroutine of the ping stores its entry. *)
Definition race_readded : Hub.World :=
  Hub.with_refreshers []
    (Hub.with_clients (<[1%nat := Hub.mkClient (5 * Hub.second)]> ∅) race_removed).


(** The three viewers, none of them failing, the hub ranging over them. *)
Definition all_healthy : Hub.World :=
  Hub.mkWorld viewers (Hub.HRange "[]" [1; 2; 3]%nat) Hub.SwSleep
    (Hub.sessions three_viewers) {[1%nat; 2%nat; 3%nat]} 0 addr [] ∅ ∅ [].

End Samples.

(* ===================================================================== *)
(** * Part II.  Properties                                                *)
(* ===================================================================== *)

(* --------------------------------------------------------------------- *)
(** ** restic.go                                                          *)
(* --------------------------------------------------------------------- *)

Lemma core_returns_stdout os repository cmd envs r :
  fst (snd (Restic.core os repository cmd envs r))
  = Restic.sout (Restic.run os "/usr/bin/restic"
                   (["-r"; Restic.Path repository; "--json"] ++ cmd)
                   (Restic.Environ os ++ ["RESTIC_PASSWORD=" +:+ Restic.Password repository])).
Proof. reflexivity. Qed.

(** A failed [Start] is printed, and nothing else tells of it. *)
Example core_start_failure :
  Restic.core Samples.os_no_restic Samples.repo ["check"] [] Samples.restic0
  = ({| Restic.errb := EmptyString; Restic.outb := EmptyString;
        Restic.console := ["exec: no such file"] |}, (EmptyString, None)).
Proof. reflexivity. Qed.

(** C10.  [Restic.core] returns a nil error whatever the operating system
    does with the command, also when [Start] or [Wait] fails; hence [Check]
    and [Initialize] return nil on every input. *)
Theorem core_error_is_always_nil :
  forall (os : Restic.OS) (repository : Restic.Repository)
         (cmd envs : list string) (r : Restic.t),
    snd (snd (Restic.core os repository cmd envs r)) = None
    /\ snd (Restic.Check os repository r) = None
    /\ snd (Restic.Initialize os repository r) = None.
Proof.
  intros os repository cmd envs r.
  split; [reflexivity|].
  unfold Restic.Check, Restic.Initialize, Restic.core; cbn.
  split; reflexivity.
Qed.

(* --------------------------------------------------------------------- *)
(** ** internal/scheduler.go: lookups, triggers and listeners             *)
(* --------------------------------------------------------------------- *)

Section SchedulerFacts.

Import Sched.

(** Unfold a method down to the record it builds. *)
Ltac run_method :=
  unfold RunJobById, StopJobById, DeleteRunningJob, SetRunningJob, RecreateCtx,
    BeforeJobRuns, AfterJobRuns, AfterJobRunsWithError,
    time_Now, send_Output, WithCancel, cancel, mu_Lock, mu_Unlock, store_Job,
    store_Jobs, log, find_Id, find_Name;
  cbn [Gocron Jobs jmu settings OutputCh ErrorCh logged contexts clock ticks
       set_Gocron set_Jobs set_jmu set_settings set_OutputCh set_logged
       set_contexts set_ticks].

Lemma find_Id_absent (id : string) (s : t) :
  id ∉ (Job.Id <$> Jobs s) -> find_Id id s = None.
Proof.
  intros Hid. unfold find_Id. apply list_find_None.
  apply Forall_forall. intros j Hj Heq. apply Hid.
  rewrite <- Heq. apply list_elem_of_fmap. exists j. split; [reflexivity|done].
Qed.

Lemma find_Id_present (id : string) (s : t) (i : nat) (j : Job.t) :
  find_Id id s = Some (i, j) -> Jobs s !! i = Some j /\ Job.Id j = id.
Proof.
  unfold find_Id. intros H. apply list_find_Some in H. tauto.
Qed.

(** [DeleteRunningJob] and [SetRunningJob] keep to the channels, the
    settings, the contexts and the clock. *)
Lemma DeleteRunningJob_frame (id : string) (s : t) :
  let s' := DeleteRunningJob id s in
  OutputCh s' = OutputCh s /\ ErrorCh s' = ErrorCh s /\ settings s' = settings s
  /\ contexts s' = contexts s /\ ticks s' = ticks s /\ clock s' = clock s
  /\ Gocron s' = Gocron s.
Proof.
  run_method. destruct (list_find _ _) as [[i j]|]; cbn; repeat split.
Qed.

Lemma RecreateCtx_frame (name : string) (s : t) :
  let s' := RecreateCtx name s in
  OutputCh s' = OutputCh s /\ ErrorCh s' = ErrorCh s /\ settings s' = settings s
  /\ ticks s' = ticks s /\ clock s' = clock s /\ Gocron s' = Gocron s.
Proof.
  run_method. destruct (list_find _ _) as [[i j]|]; cbn; repeat split.
Qed.

(** The listener run after a failed job, on the three things it is to
    report to. *)
Lemma AfterJobRunsWithError_effects (jobName err : string) (s : t) :
  let s' := AfterJobRunsWithError jobName err s in
  OutputCh s' = OutputCh s ++ [ChanMsg.mk jobName running_false (clock s (ticks s))]
  /\ ErrorCh s' = ErrorCh s
  /\ Settings.LastRun (settings s') = <[jobName := err]> (Settings.LastRun (settings s)).
Proof.
  unfold AfterJobRunsWithError, time_Now.
  set (s1 := log _ _ _ _).
  destruct (DeleteRunningJob_frame jobName s1) as (Ho & He & Hs & _).
  destruct (RecreateCtx_frame jobName (DeleteRunningJob jobName s1)) as (Ho' & He' & Hs' & _).
  cbn [OutputCh ErrorCh settings set_settings Settings.SetLastRun Settings.LastRun].
  rewrite Ho', Ho, He', He, Hs', Hs. subst s1. run_method. repeat split.
Qed.

(** The state a job is left in by that listener: idle, not forced. *)
Lemma DeleteRunningJob_clears (id : string) (s : t) (i : nat) (j : Job.t) :
  find_Id id s = Some (i, j) ->
  Jobs (DeleteRunningJob id s) !! i
  = Some (Job.set_Force false (Job.set_Running false j)).
Proof.
  intros Hf. destruct (find_Id_present _ _ _ _ Hf) as [Hi _].
  revert Hf. run_method. intros ->. cbn.
  rewrite !list_lookup_alter, Hi. rewrite !decide_True by reflexivity.
  reflexivity.
Qed.

(** C9.  For an id that no job of the registry has, [RunJobById] and
    [StopJobById] return the scheduler as it was: no field of the registry
    changes, nothing is sent on a channel, nothing is logged, no run is
    requested and no context is cancelled. *)
Theorem unknown_id_is_noop :
  forall (lib : gocron.Lib) (id : string) (s : t),
    id ∉ (Job.Id <$> Jobs s) ->
    RunJobById lib id s = s /\ StopJobById id s = s.
Proof.
  intros lib id s Hid. apply find_Id_absent in Hid.
  unfold RunJobById, StopJobById. rewrite Hid. split; reflexivity.
Qed.

Lemma unknown_id_is_noop_witness :
  ("nope" ∉ (Job.Id <$> Jobs Samples.idle_s1))
  /\ RunJobById (Samples.lib_rejecting "bad") "nope" Samples.idle_s1 = Samples.idle_s1
  /\ StopJobById "nope" Samples.idle_s1 = Samples.idle_s1.
Proof.
  assert (H : "nope" ∉ (Job.Id <$> Jobs Samples.idle_s1)).
  { cbn. intros Hin. apply list_elem_of_singleton in Hin. discriminate Hin. }
  split; [exact H|].
  exact (unknown_id_is_noop (Samples.lib_rejecting "bad") "nope" _ H).
Defined.

(** C1 (as the code has it).  The listener run after a job ended in
    an error sends [{running: false}] for the job on the success channel,
    sends nothing on the error channel, and records the text of the error
    as the last-run status of the job. *)
Theorem after_run_error_reports :
  forall (jobName err : string) (s : t),
    let s' := AfterJobRunsWithError jobName err s in
    OutputCh s' = OutputCh s ++ [ChanMsg.mk jobName running_false (clock s (ticks s))]
    /\ ErrorCh s' = ErrorCh s
    /\ Settings.LastRun (settings s') !! jobName = Some err.
Proof.
  intros jobName err s s'.
  destruct (AfterJobRunsWithError_effects jobName err s) as (Ho & He & Hl).
  fold s' in Ho, He, Hl. rewrite Ho, He, Hl.
  repeat split. apply lookup_insert_eq.
Qed.

(** C1 as stated fails: after the executor returned "disk full" for the
    job "s2", the error channel has received nothing. *)
Lemma after_run_error_silent_on_ErrorCh :
  ErrorCh (AfterJobRunsWithError "s2" "disk full" Samples.running_s2) = []
  /\ ~ (exists m,
          m ∈ ErrorCh (AfterJobRunsWithError "s2" "disk full" Samples.running_s2)
          /\ ChanMsg.Id m = "s2" /\ ChanMsg.Msg m = "disk full").
Proof.
  split; [reflexivity|].
  intros (m & Hm & _). cbn in Hm. inversion Hm.
Qed.

(* --------------------------------------------------------------------- *)
(** ** internal/scheduler.go: rebuilding the registry, and the lock       *)
(* --------------------------------------------------------------------- *)

Lemma reschedule_one_created lib s x :
  attempt lib s 0 x = None ->
  exists j, built_for s 0 x j
    /\ Jobs (reschedule_one lib s x) = Jobs s ++ [j]
    /\ gocron.jobs (Gocron (reschedule_one lib s x)) = gocron.jobs (Gocron s) ++ [Job.job j]
    /\ logged (reschedule_one lib s x) = logged s.
Proof.
  unfold attempt. rewrite Nat.add_0_r. intros E.
  unfold reschedule_one, time_Now, gocron.NewJob.
  cbn [Gocron set_ticks]. rewrite E. cbn.
  eexists. split; [|repeat split].
  unfold built_for; cbn. rewrite Nat.add_0_r. repeat split.
Qed.

Lemma reschedule_one_refused lib s x e :
  attempt lib s 0 x = Some e ->
  Jobs (reschedule_one lib s x) = Jobs s
  /\ Gocron (reschedule_one lib s x) = Gocron s
  /\ logged (reschedule_one lib s x) = logged s ++ [creation_error e].
Proof.
  unfold attempt. rewrite Nat.add_0_r. intros E.
  unfold reschedule_one, time_Now, gocron.NewJob.
  cbn [Gocron set_ticks]. rewrite E. cbn. repeat split.
Qed.

Lemma reschedule_one_frame lib s x :
  clock (reschedule_one lib s x) = clock s
  /\ ticks (reschedule_one lib s x) = S (ticks s)
  /\ settings (reschedule_one lib s x) = settings s
  /\ OutputCh (reschedule_one lib s x) = OutputCh s
  /\ ErrorCh (reschedule_one lib s x) = ErrorCh s.
Proof.
  unfold reschedule_one, time_Now, gocron.NewJob. cbn [Gocron set_ticks].
  destruct (gocron.NewJob_err _ _ _); cbn; repeat split.
Qed.

Lemma attempt_shift lib s s1 n k x :
  clock s1 = clock s -> ticks s1 = ticks s + n ->
  attempt lib s1 k x = attempt lib s (n + k) x.
Proof.
  intros Hc Ht. unfold attempt. rewrite Hc, Ht. do 3 f_equal. lia.
Qed.

Lemma built_for_shift s s1 n k x j :
  clock s1 = clock s -> ticks s1 = ticks s + n ->
  built_for s1 k x j -> built_for s (n + k) x j.
Proof.
  intros Hc Ht. unfold built_for. rewrite Hc, Ht.
  replace (ticks s + n + k) with (ticks s + (n + k)) by lia. tauto.
Qed.

Lemma accepted_snoc lib s l x :
  accepted lib s (l ++ [x])
  = accepted lib s l ++
    match attempt lib s (length l) x with
    | None => [(length l, x)]
    | Some _ => []
    end.
Proof.
  unfold accepted. rewrite imap_app, filter_app. f_equal.
  cbn [imap compose]. rewrite Nat.add_0_r.
  destruct (attempt lib s (length l) x) eqn:E.
  - rewrite filter_cons_False; [reflexivity|]. cbn. rewrite E. discriminate.
  - rewrite filter_cons_True; [reflexivity|]. cbn. exact E.
Qed.

Lemma refused_snoc lib s l x :
  refused lib s (l ++ [x])
  = refused lib s l ++
    match attempt lib s (length l) x with
    | None => []
    | Some e => [e]
    end.
Proof.
  unfold refused. rewrite imap_app, omap_app. f_equal.
  cbn [imap compose omap list_omap fst snd]. rewrite Nat.add_0_r.
  destruct (attempt lib s (length l) x); reflexivity.
Qed.

Lemma reschedule_loop lib s l :
  let s' := foldl (reschedule_one lib) s l in
  (clock s' = clock s /\ ticks s' = ticks s + length l
   /\ settings s' = settings s /\ OutputCh s' = OutputCh s /\ ErrorCh s' = ErrorCh s)
  /\ exists new,
       Jobs s' = Jobs s ++ new
       /\ Forall2 (fun p j => built_for s (fst p) (snd p) j) (accepted lib s l) new
       /\ gocron.jobs (Gocron s') = gocron.jobs (Gocron s) ++ (Job.job <$> new)
       /\ logged s' = logged s ++ (creation_error <$> refused lib s l).
Proof.
  induction l as [|x l IH] using rev_ind; cbn zeta.
  - cbn. split; [repeat split; lia|].
    exists []. rewrite !app_nil_r. repeat split. constructor.
  - rewrite foldl_snoc. set (s1 := foldl (reschedule_one lib) s l) in *.
    destruct IH as ((Hc & Ht & Hs & Ho & He) & new & Hj & Hb & Hg & Hl).
    destruct (reschedule_one_frame lib s1 x) as (Hc' & Ht' & Hs' & Ho' & He').
    split.
    { rewrite Hc', Ht', Hs', Ho', He', length_app. cbn. repeat split; try done. lia. }
    rewrite accepted_snoc, refused_snoc.
    pose proof (attempt_shift lib s s1 (length l) 0 x Hc Ht) as Ha.
    rewrite Nat.add_0_r in Ha.
    destruct (attempt lib s (length l) x) as [e|] eqn:E.
    + destruct (reschedule_one_refused lib s1 x e Ha) as (Hj' & Hg' & Hl').
      exists new. rewrite Hj', Hg', Hl', Hl, app_nil_r, fmap_app, app_assoc.
      repeat split; done.
    + destruct (reschedule_one_created lib s1 x Ha) as (j & Hbj & Hj' & Hg' & Hl').
      exists (new ++ [j]).
      rewrite Hj', Hg', Hl', Hj, Hg, Hl, fmap_app, !app_assoc, app_nil_r.
      repeat split; try done.
      apply Forall2_app; [exact Hb|]. constructor; [|constructor].
      cbn. apply (built_for_shift s s1 (length l) 0 x j Hc Ht) in Hbj.
      rewrite Nat.add_0_r in Hbj. exact Hbj.
Qed.

Lemma accepted_elem lib s l k sch :
  (k, sch) ∈ accepted lib s l <-> l !! k = Some sch /\ attempt lib s k sch = None.
Proof.
  unfold accepted. rewrite list_elem_of_filter, elem_of_lookup_imap. cbn. split.
  - intros (Ha & i & x & Heq & Hl). inversion Heq; subst. tauto.
  - intros (Hl & Ha). split; [exact Ha|]. exists k, sch. tauto.
Qed.

Lemma accepted_sublist lib s l : (snd <$> accepted lib s l) `sublist_of` l.
Proof.
  unfold accepted.
  transitivity (snd <$> imap pair l).
  - apply fmap_sublist, sublist_filter.
  - rewrite fmap_imap.
    rewrite (imap_ext _ (const id) l) by reflexivity.
    rewrite imap_const, list_fmap_id. reflexivity.
Qed.

Lemma accepted_refused_length lib s l :
  length (accepted lib s l) + length (refused lib s l) = length l.
Proof.
  induction l as [|x l IH] using rev_ind; [reflexivity|].
  rewrite accepted_snoc, refused_snoc, !length_app.
  destruct (attempt lib s (length l) x); cbn; lia.
Qed.

Lemma built_for_Schedule s (acc : list (nat * Schedule.t)) (js : list Job.t) :
  Forall2 (fun p j => built_for s (fst p) (snd p) j) acc js ->
  Job.Schedule <$> js = snd <$> acc /\ Job.Id <$> js = Schedule.Id <$> (snd <$> acc).
Proof.
  induction 1 as [|p j acc js (Hid & Hsch & _) _ [IH1 IH2]]; [split; reflexivity|].
  cbn. rewrite IH1, IH2, Hid, Hsch. split; reflexivity.
Qed.

Lemma filter_none {A} (P : A -> Prop) `{forall x, Decision (P x)} (l : list A) :
  (forall z, z ∈ l -> ~ P z) -> filter P l = [].
Proof.
  induction l as [|y l IH]; intros Hl; [reflexivity|].
  rewrite filter_cons_False by (apply Hl; left).
  apply IH. intros z Hz. apply Hl. right. exact Hz.
Qed.

(** In a list with pairwise different keys, a key of the list is the key
    of exactly one element. *)
Lemma one_with_key {A} (key : A -> string) (l : list A) (x : A) :
  NoDup (key <$> l) -> x ∈ l ->
  length (filter (fun y => key y = key x) l) = 1.
Proof.
  induction l as [|y l IH]; intros Hnd Hx; [inversion Hx|].
  cbn in Hnd. apply NoDup_cons in Hnd as [Hy Hnd].
  destruct (decide (key y = key x)) as [Heq|Hne].
  - rewrite filter_cons_True by exact Heq. cbn. f_equal.
    rewrite filter_none; [reflexivity|].
    intros z Hz Hk. apply Hy. rewrite Heq, <- Hk.
    apply list_elem_of_fmap. exists z. split; [reflexivity|exact Hz].
  - rewrite filter_cons_False by exact Hne.
    apply IH; [exact Hnd|].
    apply elem_of_cons in Hx as [->|Hx]; [congruence|exact Hx].
Qed.

(** What a rebuild leaves behind. *)
Lemma RescheduleBackups_spec lib s :
  let s' := RescheduleBackups lib s in
  let l := Settings.Schedules (settings s) in
  Forall2 (fun p j => built_for s (fst p) (snd p) j) (accepted lib s l) (Jobs s')
  /\ gocron.jobs (Gocron s') = gocron.jobs (Gocron s) ++ (Job.job <$> Jobs s')
  /\ logged s' = logged s ++ mkLog Info "Rescheduling backups" []
                             :: (creation_error <$> refused lib s l)
  /\ settings s' = settings s /\ OutputCh s' = OutputCh s /\ ErrorCh s' = ErrorCh s.
Proof.
  cbv zeta. unfold RescheduleBackups.
  set (s0 := log Info _ _ (store_Jobs [] s)).
  change (settings s0) with (settings s).
  destruct (reschedule_loop lib s0 (Settings.Schedules (settings s)))
    as ((_ & _ & Hs & Ho & He) & new & Hj & Hb & Hg & Hl).
  change (Jobs s0) with (@nil Job.t) in Hj. cbn [app] in Hj.
  rewrite Hj, Hg, Hl, Hs, Ho, He. subst s0. cbn.
  rewrite <- app_assoc. repeat split. exact Hb.
Qed.

Lemma jobDef_cron (now : Time.t) (sch : Schedule.t) :
  Schedule.Cron sch <> EmptyString ->
  jobDef now sch = gocron.CronJob (Schedule.Cron sch) false.
Proof. intros H. unfold jobDef. rewrite decide_True by exact H. reflexivity. Qed.

Lemma AddDate_years_year (n : Z) (x : Time.t) :
  Time.year (Time.AddDate_years n x) = (Time.year x + n)%Z.
Proof. unfold Time.AddDate_years. destruct (_ && _); reflexivity. Qed.

Lemma jobDef_one_time (now : Time.t) (sch : Schedule.t) :
  Schedule.Cron sch = EmptyString ->
  jobDef now sch = gocron.OneTimeJob (Time.AddDate_years 1000 now).
Proof.
  intros H. unfold jobDef. rewrite decide_False; [reflexivity|]. intros Hn. exact (Hn H).
Qed.

Lemma rebuilt_job_origin lib s j :
  j ∈ Jobs (RescheduleBackups lib s) ->
  exists k sch, Settings.Schedules (settings s) !! k = Some sch
    /\ attempt lib s k sch = None /\ built_for s k sch j.
Proof.
  intros Hj. destruct (RescheduleBackups_spec lib s) as (Hb & _).
  apply list_elem_of_lookup in Hj as [i Hi].
  destruct (Forall2_lookup_r _ _ _ _ _ Hb Hi) as ([k sch] & Hacc & Hbuilt).
  exists k, sch. apply list_elem_of_lookup_2 in Hacc.
  apply accepted_elem in Hacc as [Hl Ha]. auto.
Qed.

Lemma rebuilt_job_exists lib s k sch :
  Settings.Schedules (settings s) !! k = Some sch ->
  attempt lib s k sch = None ->
  exists j, j ∈ Jobs (RescheduleBackups lib s) /\ built_for s k sch j.
Proof.
  intros Hl Ha. destruct (RescheduleBackups_spec lib s) as (Hb & _).
  assert (Hacc : (k, sch) ∈ accepted lib s (Settings.Schedules (settings s))).
  { apply accepted_elem. auto. }
  apply list_elem_of_lookup in Hacc as [i Hi].
  destruct (Forall2_lookup_l _ _ _ _ _ Hb Hi) as (j & Hj & Hbuilt).
  exists j. split; [|exact Hbuilt]. eapply list_elem_of_lookup_2, Hj.
Qed.

Lemma rebuilt_ids_NoDup lib s :
  NoDup (Schedule.Id <$> Settings.Schedules (settings s)) ->
  NoDup (Job.Id <$> Jobs (RescheduleBackups lib s)).
Proof.
  intros Hnd. destruct (RescheduleBackups_spec lib s) as (Hb & _).
  apply built_for_Schedule in Hb as [_ Hids]. rewrite Hids.
  eapply sublist_NoDup; [exact Hnd|].
  apply fmap_sublist, accepted_sublist.
Qed.

(** C8.  In a rebuild, a schedule for which gocron refuses to create
    the job is logged and skipped, and nothing else is: every schedule
    gocron accepts gets its job whatever happened to the others, the jobs
    of the new registry are those of the accepted schedules in order, and
    every schedule of the list is either built or logged. *)
Theorem failed_schedule_is_skipped :
  forall (lib : gocron.Lib) (s : t),
    let s' := RescheduleBackups lib s in
    let l := Settings.Schedules (settings s) in
    (forall k sch e, l !! k = Some sch -> attempt lib s k sch = Some e ->
       creation_error e ∈ logged s')
    /\ (forall k sch, l !! k = Some sch -> attempt lib s k sch = None ->
          exists j, j ∈ Jobs s' /\ Job.Id j = Schedule.Id sch /\ Job.Schedule j = sch)
    /\ Job.Schedule <$> Jobs s' = snd <$> accepted lib s l
    /\ length (Jobs s') + length (refused lib s l) = length l.
Proof.
  intros lib s s' l.
  destruct (RescheduleBackups_spec lib s) as (Hb & _ & Hlog & _).
  fold s' l in Hb, Hlog. repeat split.
  - intros k sch e Hl Ha. rewrite Hlog.
    apply elem_of_app. right. right.
    apply list_elem_of_fmap. exists e. split; [reflexivity|].
    unfold refused. apply list_elem_of_omap. exists (k, sch). split; [|exact Ha].
    apply elem_of_lookup_imap. exists k, sch. auto.
  - intros k sch Hl Ha.
    destruct (rebuilt_job_exists lib s k sch Hl Ha) as (j & Hj & Hid & Hsch & _).
    exists j. auto.
  - apply built_for_Schedule in Hb. apply Hb.
  - rewrite <- (Forall2_length _ _ _ Hb). apply accepted_refused_length.
Qed.

(** C4 (as the code has it).  A rebuild drops the jobs of the registry
    and fills it from the schedules of the configuration: every job of the
    new registry was built in this rebuild for a schedule gocron accepted;
    every accepted schedule has a job with its id, and exactly one when
    the ids of the schedules differ; a refused schedule has none; the job
    is driven by the schedule's cron expression when it has one, and by a
    one-time start a thousand years after the rebuild otherwise; and the
    timer task of every job of the new registry is registered with gocron. *)
Theorem rebuild_reconstructs_jobs :
  forall (lib : gocron.Lib) (s : t),
    let s' := RescheduleBackups lib s in
    let l := Settings.Schedules (settings s) in
    (forall j, j ∈ Jobs s' ->
       exists k sch, l !! k = Some sch /\ attempt lib s k sch = None
                     /\ built_for s k sch j)
    /\ (forall k sch, l !! k = Some sch -> attempt lib s k sch = None ->
          (exists j, j ∈ Jobs s' /\ built_for s k sch j)
          /\ (NoDup (Schedule.Id <$> l) ->
              length (filter (fun j => Job.Id j = Schedule.Id sch) (Jobs s')) = 1))
    /\ (forall k sch e, l !! k = Some sch -> attempt lib s k sch = Some e ->
          NoDup (Schedule.Id <$> l) ->
          forall j, j ∈ Jobs s' -> Job.Id j <> Schedule.Id sch)
    /\ (forall now sch, Schedule.Cron sch <> EmptyString ->
          jobDef now sch = gocron.CronJob (Schedule.Cron sch) false)
    /\ (forall now sch, Schedule.Cron sch = EmptyString ->
          jobDef now sch = gocron.OneTimeJob (Time.AddDate_years 1000 now)
          /\ Time.year (Time.AddDate_years 1000 now) = (Time.year now + 1000)%Z)
    /\ (forall j, j ∈ Jobs s' -> Job.job j ∈ gocron.jobs (Gocron s')).
Proof.
  intros lib s s' l. split; [|split; [|split; [|split; [|split]]]].
  - intros j Hj. exact (rebuilt_job_origin lib s j Hj).
  - intros k sch Hl Ha.
    destruct (rebuilt_job_exists lib s k sch Hl Ha) as (j & Hj & Hbuilt).
    split; [exists j; auto|].
    intros Hnd. destruct Hbuilt as (Hid & _). rewrite <- Hid.
    apply one_with_key; [|exact Hj]. apply rebuilt_ids_NoDup, Hnd.
  - intros k sch e Hl Ha Hnd j Hj Hid.
    destruct (rebuilt_job_origin lib s j Hj) as (k' & sch' & Hl' & Ha' & Hid' & _).
    fold l in Hl'.
    assert (k' = k).
    { eapply NoDup_lookup; [exact Hnd| |].
      - rewrite list_lookup_fmap, Hl'. reflexivity.
      - rewrite list_lookup_fmap, Hl. cbn. congruence. }
    subst k'. rewrite Hl in Hl'. inversion Hl'; subst sch'. congruence.
  - intros now sch. apply jobDef_cron.
  - intros now sch H. split; [apply jobDef_one_time, H|apply AddDate_years_year].
  - intros j Hj. destruct (RescheduleBackups_spec lib s) as (_ & Hg & _).
    fold s' in Hg. rewrite Hg. apply elem_of_app. right.
    apply list_elem_of_fmap. exists j. split; [reflexivity|exact Hj].
Qed.

Lemma SetRunningJob_disciplined (id : string) (s : t) :
  disciplined false (events_of (SetRunningJob id) s) = true.
Proof.
  unfold events_of, SetRunningJob, mu_Lock, mu_Unlock, store_Job, find_Id, log.
  cbn [jmu set_jmu set_logged set_Jobs Jobs].
  destruct (list_find _ _) as [[i j]|]; cbn [jmu set_jmu set_logged set_Jobs];
    rewrite <- ?app_assoc, drop_app_length; reflexivity.
Qed.

Lemma DeleteRunningJob_disciplined (id : string) (s : t) :
  disciplined false (events_of (DeleteRunningJob id) s) = true.
Proof.
  unfold events_of, DeleteRunningJob, mu_Lock, mu_Unlock, store_Job, find_Id, log.
  cbn [jmu set_jmu set_logged set_Jobs Jobs].
  destruct (list_find _ _) as [[i j]|]; cbn [jmu set_jmu set_logged set_Jobs];
    rewrite <- ?app_assoc, drop_app_length; reflexivity.
Qed.

(** [RecreateCtx] stores into the job it finds with [jmu] not held. *)
Lemma RecreateCtx_stores_unlocked (name : string) (s : t) (i : nat) (j : Job.t) :
  find_Name name s = Some (i, j) ->
  events_of (RecreateCtx name) s = [Store; Store].
Proof.
  unfold events_of, RecreateCtx. intros ->.
  unfold WithCancel, store_Job, log.
  cbn [jmu set_jmu set_logged set_Jobs set_contexts].
  rewrite <- app_assoc, drop_app_length. reflexivity.
Qed.

(** So does [RunJobById]. *)
Lemma RunJobById_stores_unlocked lib (id : string) (s : t) (i : nat) (j : Job.t) :
  find_Id id s = Some (i, j) ->
  events_of (RunJobById lib id) s = [Store].
Proof.
  unfold events_of, RunJobById. intros ->.
  unfold gocron.RunNow, store_Job, log, set_Gocron.
  cbn [jmu set_jmu set_logged set_Jobs Gocron].
  destruct (gocron.RunNow_err _ _ _); cbn [jmu set_jmu set_logged set_Jobs];
    rewrite drop_app_length; reflexivity.
Qed.

(** C3, on the code.  With the job "s1" in the registry, [RecreateCtx],
    [RunJobById] and [RescheduleBackups] store into the registry and never
    take [jmu]: each of the three runs breaks the lock discipline. *)
Theorem registry_stores_without_lock :
  events_of (RecreateCtx "s1") Samples.idle_s1 = [Store; Store]
  /\ events_of (RunJobById (Samples.lib_rejecting "bad") "s1") Samples.idle_s1 = [Store]
  /\ events_of (RescheduleBackups (Samples.lib_rejecting "bad")) Samples.configured_s1
     = [Store; Store]
  /\ disciplined false (events_of (RecreateCtx "s1") Samples.idle_s1) = false
  /\ disciplined false
       (events_of (RunJobById (Samples.lib_rejecting "bad") "s1") Samples.idle_s1) = false
  /\ disciplined false
       (events_of (RescheduleBackups (Samples.lib_rejecting "bad")) Samples.configured_s1)
     = false.
Proof. repeat split; vm_compute; reflexivity. Qed.

(** What a stop does to a job of the registry. *)
Lemma StopJobById_effects (id : string) (s : t) (i : nat) (j : Job.t) :
  find_Id id s = Some (i, j) ->
  StopJobById id s
  = cancel (Job.Cancel j)
      (send_Output
         (ChanMsg.mk (Schedule.Id (Job.Schedule j)) running_false (clock s (ticks s)))
         (set_ticks (S (ticks s)) s)).
Proof. unfold StopJobById. intros ->. reflexivity. Qed.

Lemma rebuild_witness_NoDup :
  NoDup (Schedule.Id <$> Settings.Schedules (settings Samples.stale_three)).
Proof. apply (bool_decide_unpack _). vm_compute. exact I. Defined.

Lemma failed_schedule_is_skipped_witness :
  creation_error "gocron: crontab parse failure"
    ∈ logged (RescheduleBackups (Samples.lib_rejecting "bad") Samples.stale_three)
  /\ exists j, j ∈ Jobs (RescheduleBackups (Samples.lib_rejecting "bad") Samples.stale_three)
               /\ Job.Id j = "s2"
               /\ Job.Schedule j = Samples.sched "s2" "*/5 * * * *".
Proof.
  destruct (failed_schedule_is_skipped (Samples.lib_rejecting "bad") Samples.stale_three)
    as (Hlog & Hjob & _).
  split.
  - apply (Hlog 0%nat (Samples.sched "s1" "bad")); reflexivity.
  - apply (Hjob 1%nat (Samples.sched "s2" "*/5 * * * *")); reflexivity.
Defined.

Lemma rebuild_reconstructs_jobs_witness :
  (exists j, j ∈ Jobs (RescheduleBackups (Samples.lib_rejecting "bad") Samples.stale_three)
             /\ built_for Samples.stale_three 2 (Samples.sched "s3" EmptyString) j)
  /\ length (filter (fun j => Job.Id j = "s3")
               (Jobs (RescheduleBackups (Samples.lib_rejecting "bad") Samples.stale_three)))
     = 1%nat.
Proof.
  destruct (rebuild_reconstructs_jobs (Samples.lib_rejecting "bad") Samples.stale_three)
    as (_ & Hjob & _).
  destruct (Hjob 2%nat (Samples.sched "s3" EmptyString) eq_refl eq_refl) as [Hex Hone].
  split; [exact Hex|exact (Hone rebuild_witness_NoDup)].
Defined.

(** C4 as stated fails: the schedule "s1" has a cron expression, gocron
    refuses it, and the rebuilt registry has no job at all; the task of
    the job "old" is still registered with gocron. *)
Lemma rebuild_skips_refused_cron :
  Samples.sched "s1" "bad" ∈ Settings.Schedules (settings Samples.stale_one_bad)
  /\ Schedule.Cron (Samples.sched "s1" "bad") <> EmptyString
  /\ Jobs (RescheduleBackups (Samples.lib_rejecting "bad") Samples.stale_one_bad) = []
  /\ Samples.gjob 0 "old" "0 3 * * *"
       ∈ gocron.jobs (Gocron (RescheduleBackups (Samples.lib_rejecting "bad")
                                Samples.stale_one_bad)).
Proof.
  split; [left|]. split; [discriminate|]. split; [reflexivity|]. left.
Qed.

End SchedulerFacts.

(* --------------------------------------------------------------------- *)
(** ** The server file: the tables of a viewer session                    *)
(* --------------------------------------------------------------------- *)

Section SessionFacts.

Import Session.

Lemma entries_app (id : string) (l k : list WsMsg.t) :
  entries id (l ++ k) = entries id l ++ entries id k.
Proof. apply List.filter_app. Qed.

Lemma entries_none (id : string) (l : list WsMsg.t) :
  id ∉ (WsMsg.Id <$> l) -> entries id l = [].
Proof.
  induction l as [|x l IH]; intros Hid; [reflexivity|].
  cbn. destruct (String.eqb_spec (WsMsg.Id x) id) as [Heq|Hne].
  - exfalso. apply Hid. rewrite <- Heq. left.
  - apply IH. intros Hin. apply Hid. right. exact Hin.
Qed.

(** With one entry per id, the entries for the id of a record of the
    table are that record alone. *)
Lemma entries_unique (l : list WsMsg.t) (x : WsMsg.t) :
  NoDup (WsMsg.Id <$> l) -> x ∈ l -> entries (WsMsg.Id x) l = [x].
Proof.
  induction l as [|y l IH]; intros Hnd Hx; [inversion Hx|].
  cbn in Hnd. apply NoDup_cons in Hnd as [Hy Hnd]. cbn.
  destruct (String.eqb_spec (WsMsg.Id y) (WsMsg.Id x)) as [Heq|Hne].
  - assert (Hno : WsMsg.Id x ∉ (WsMsg.Id <$> l)) by (rewrite <- Heq; exact Hy).
    change (List.filter _ l) with (entries (WsMsg.Id x) l).
    rewrite (entries_none _ _ Hno).
    apply elem_of_cons in Hx as [->|Hx]; [reflexivity|].
    exfalso. apply Hno. apply list_elem_of_fmap. exists x. auto.
  - apply IH; [exact Hnd|].
    apply elem_of_cons in Hx as [->|Hx]; [congruence|exact Hx].
Qed.

(** The two ways [upsert] goes for a record with an id. *)
Lemma upsert_fresh (m : WsMsg.t) (l : list WsMsg.t) :
  WsMsg.Id m <> EmptyString -> WsMsg.Id m ∉ (WsMsg.Id <$> l) ->
  upsert m l = l ++ [m].
Proof.
  intros Hm Hid. unfold upsert, funk_Find. rewrite decide_True by exact Hm.
  replace (list_find _ l) with (@None (nat * WsMsg.t)); [reflexivity|].
  symmetry. apply list_find_None, Forall_forall. intros x Hx Heq.
  apply Hid. rewrite <- Heq. apply list_elem_of_fmap. exists x. auto.
Qed.

Lemma upsert_known (m : WsMsg.t) (l : list WsMsg.t) :
  WsMsg.Id m <> EmptyString -> WsMsg.Id m ∈ (WsMsg.Id <$> l) ->
  exists i x, l !! i = Some x /\ WsMsg.Id x = WsMsg.Id m /\ upsert m l = <[i := m]> l.
Proof.
  intros Hm Hid. unfold upsert, funk_Find. rewrite decide_True by exact Hm.
  apply list_elem_of_fmap in Hid as (y & Hy & Hin).
  destruct (list_find (fun arrm => WsMsg.Id arrm = WsMsg.Id m) l) as [[i x]|] eqn:Hf.
  - cbn. apply list_find_Some in Hf as (Hi & Hx & _). exists i, x. auto.
  - exfalso. apply list_find_None in Hf.
    rewrite Forall_forall in Hf. apply (Hf y Hin). congruence.
Qed.

Lemma upsert_no_id (m : WsMsg.t) (l : list WsMsg.t) :
  WsMsg.Id m = EmptyString -> upsert m l = l.
Proof.
  intros Hm. unfold upsert. rewrite decide_False; [reflexivity|].
  intros Hn. exact (Hn Hm).
Qed.

Lemma upsert_NoDup (m : WsMsg.t) (l : list WsMsg.t) :
  NoDup (WsMsg.Id <$> l) -> NoDup (WsMsg.Id <$> upsert m l).
Proof.
  intros Hnd.
  destruct (decide (WsMsg.Id m = EmptyString)) as [He|Hne].
  { rewrite upsert_no_id by exact He. exact Hnd. }
  destruct (decide (WsMsg.Id m ∈ (WsMsg.Id <$> l))) as [Hin|Hout].
  - destruct (upsert_known m l Hne Hin) as (i & x & Hi & Hx & ->).
    rewrite list_fmap_insert, list_insert_id; [exact Hnd|].
    rewrite list_lookup_fmap, Hi. cbn. congruence.
  - rewrite upsert_fresh by assumption. rewrite fmap_app.
    apply NoDup_app. split; [exact Hnd|]. split.
    + intros id Hid Hin. cbn in Hin. apply list_elem_of_singleton in Hin.
      subst id. contradiction.
    + cbn. apply NoDup_singleton.
Qed.

Lemma upsert_holds (m : WsMsg.t) (l : list WsMsg.t) :
  WsMsg.Id m <> EmptyString -> m ∈ upsert m l.
Proof.
  intros Hne.
  destruct (decide (WsMsg.Id m ∈ (WsMsg.Id <$> l))) as [Hin|Hout].
  - destruct (upsert_known m l Hne Hin) as (i & x & Hi & Hx & ->).
    apply list_elem_of_lookup. exists i. apply list_lookup_insert_eq.
    eapply lookup_lt_Some, Hi.
  - rewrite upsert_fresh by assumption. apply elem_of_app. right. left.
Qed.

(** Last write wins: after a record with an id went in, the table holds
    exactly that record for the id. *)
Lemma upsert_same (m : WsMsg.t) (l : list WsMsg.t) :
  WsMsg.Id m <> EmptyString -> NoDup (WsMsg.Id <$> l) ->
  entries (WsMsg.Id m) (upsert m l) = [m].
Proof.
  intros Hne Hnd. apply entries_unique.
  - apply upsert_NoDup, Hnd.
  - apply upsert_holds, Hne.
Qed.

(** The entries for the other ids stay. *)
Lemma upsert_other (id : string) (m : WsMsg.t) (l : list WsMsg.t) :
  WsMsg.Id m <> id -> entries id (upsert m l) = entries id l.
Proof.
  intros Hid.
  destruct (decide (WsMsg.Id m = EmptyString)) as [He|Hne].
  { rewrite upsert_no_id by exact He. reflexivity. }
  assert (Hm : entries id [m] = []).
  { cbn. destruct (String.eqb_spec (WsMsg.Id m) id); [contradiction|reflexivity]. }
  destruct (decide (WsMsg.Id m ∈ (WsMsg.Id <$> l))) as [Hin|Hout].
  - destruct (upsert_known m l Hne Hin) as (i & x & Hi & Hx & ->).
    rewrite insert_take_drop by (eapply lookup_lt_Some, Hi).
    rewrite <- (take_drop_middle l i x Hi) at 3.
    rewrite !entries_app. f_equal.
    change (m :: drop (S i) l) with ([m] ++ drop (S i) l).
    change (x :: drop (S i) l) with ([x] ++ drop (S i) l).
    rewrite !entries_app, Hm. f_equal.
    cbn. destruct (String.eqb_spec (WsMsg.Id x) id); [congruence|reflexivity].
  - rewrite upsert_fresh by assumption.
    rewrite entries_app, Hm, app_nil_r. reflexivity.
Qed.

(** No record without an id gets into a table. *)
Lemma upsert_ids (m : WsMsg.t) (l : list WsMsg.t) :
  Forall (fun x => WsMsg.Id x <> EmptyString) l ->
  Forall (fun x => WsMsg.Id x <> EmptyString) (upsert m l).
Proof.
  intros Hl.
  destruct (decide (WsMsg.Id m = EmptyString)) as [He|Hne].
  { rewrite upsert_no_id by exact He. exact Hl. }
  destruct (decide (WsMsg.Id m ∈ (WsMsg.Id <$> l))) as [Hin|Hout].
  - destruct (upsert_known m l Hne Hin) as (i & x & Hi & Hx & ->).
    apply Forall_insert; assumption.
  - rewrite upsert_fresh by assumption. apply Forall_app. split; [exact Hl|].
    constructor; [exact Hne|constructor].
Qed.

Lemma keep_Out_spec (m : WsMsg.t) :
  keep_Out m = true -> WsMsg.Out m <> EmptyString /\ WsMsg.Out m <> "{}".
Proof.
  unfold keep_Out. intros H. apply andb_true_iff in H as [H1 H2].
  apply negb_true_iff in H1, H2. split.
  - intros Heq. rewrite Heq in H1. discriminate H1.
  - intros Heq. rewrite Heq in H2. discriminate H2.
Qed.

(** A run in two parts. *)
Lemma run_app (evs1 evs2 : list Event) (st : Session.t) :
  fst (run (evs1 ++ evs2) st) = fst (run evs2 (fst (run evs1 st)))
  /\ snd (run (evs1 ++ evs2) st)
     = snd (run evs1 st) ++ snd (run evs2 (fst (run evs1 st))).
Proof.
  revert st. induction evs1 as [|ev evs1 IH]; intros st.
  - split; reflexivity.
  - cbn [app run]. destruct (on_event ev st) as [st' b].
    specialize (IH st').
    destruct (run (evs1 ++ evs2) st') as [st2 bs2].
    destruct (run evs1 st') as [st1 bs1].
    cbn in *. destruct IH as [-> ->]. split; reflexivity.
Qed.

Lemma on_event_table_ok (ev : Event) (st : Session.t) :
  table_ok (outs st) -> table_ok (outs (fst (on_event ev st))).
Proof.
  intros [Hnd Hid]. destruct ev as [o|e]; cbn; [|split; assumption].
  split; [apply upsert_NoDup, Hnd|apply upsert_ids, Hid].
Qed.

Lemma run_table_ok (evs : list Event) (st : Session.t) :
  table_ok (outs st) -> table_ok (outs (fst (run evs st))).
Proof.
  revert st. induction evs as [|ev evs IH]; intros st Hst; [exact Hst|].
  cbn [run]. pose proof (on_event_table_ok ev st Hst) as H1.
  destruct (on_event ev st) as [st' b]. specialize (IH st' H1).
  destruct (run evs st') as [st2 bs]. exact IH.
Qed.

(** Later success events for other ids leave the entries of an id. *)
Lemma run_outputs_other (id : string) (os : list ChanMsg.t) (st : Session.t) :
  (forall o, o ∈ os -> ChanMsg.Id o <> id) ->
  entries id (outs (fst (run (FromOutput <$> os) st))) = entries id (outs st).
Proof.
  revert st. induction os as [|o os IH]; intros st Hos; [reflexivity|].
  cbn [fmap list_fmap run on_event].
  match goal with |- context [run _ ?st'] => specialize (IH st'); destruct (run _ st') end.
  cbn [fst] in *. rewrite IH by (intros o' Ho'; apply Hos; right; exact Ho').
  cbn [outs]. apply upsert_other. cbn. apply Hos. left.
Qed.

(** Every slice a success event hands to the serializer went through the
    filter. *)
Lemma run_outputs_filtered (os : list ChanMsg.t) (st : Session.t) (b : list WsMsg.t) :
  b ∈ snd (run (FromOutput <$> os) st) ->
  forall m, m ∈ b -> WsMsg.Out m <> EmptyString /\ WsMsg.Out m <> "{}".
Proof.
  revert st. induction os as [|o os IH]; intros st Hb m Hm; [inversion Hb|].
  cbn [fmap list_fmap run on_event] in Hb.
  match type of Hb with context [run _ ?st'] =>
    specialize (IH st'); destruct (run _ st') as [st2 bs] end.
  cbn [snd] in *. apply elem_of_cons in Hb as [->|Hb].
  - apply keep_Out_spec. unfold funk_Filter in Hm.
    apply list_elem_of_In, List.filter_In in Hm. apply Hm.
  - exact (IH Hb m Hm).
Qed.

(** C6 (as the code has it).  After any sequence of success events the
    success table of a session has at most one entry per id and none
    without an id; for an id that is not empty it holds exactly one entry,
    with the payload of the last event for that id; and every slice handed
    to the serializer is free of entries whose payload is empty or [{}]. *)
Theorem session_table_last_write_wins :
  forall os : list ChanMsg.t,
    let r := run (FromOutput <$> os) init in
    NoDup (WsMsg.Id <$> outs (fst r))
    /\ (forall os1 o os2,
          os = os1 ++ o :: os2 ->
          ChanMsg.Id o <> EmptyString ->
          (forall o', o' ∈ os2 -> ChanMsg.Id o' <> ChanMsg.Id o) ->
          entries (ChanMsg.Id o) (outs (fst r))
          = [WsMsg.mk (ChanMsg.Id o) (ChanMsg.Msg o) EmptyString])
    /\ (forall m, m ∈ outs (fst r) -> WsMsg.Id m <> EmptyString)
    /\ (forall b m, b ∈ snd r -> m ∈ b ->
          WsMsg.Out m <> EmptyString /\ WsMsg.Out m <> "{}").
Proof.
  intros os r.
  assert (Hinit : table_ok (outs init)) by (split; constructor).
  pose proof (run_table_ok (FromOutput <$> os) init Hinit) as [Hnd Hids].
  fold r in Hnd, Hids. split; [exact Hnd|]. split; [|split].
  - intros os1 o os2 -> Ho Hos2. subst r.
    change (os1 ++ o :: os2) with (os1 ++ [o] ++ os2).
    rewrite !fmap_app.
    destruct (run_app (FromOutput <$> os1) ((FromOutput <$> [o]) ++ (FromOutput <$> os2)) init)
      as [-> _].
    set (st1 := fst (run (FromOutput <$> os1) init)).
    destruct (run_app (FromOutput <$> [o]) (FromOutput <$> os2) st1) as [-> _].
    rewrite run_outputs_other by exact Hos2.
    cbn [fmap list_fmap run on_event fst outs].
    apply (upsert_same (WsMsg.mk (ChanMsg.Id o) (ChanMsg.Msg o) EmptyString));
      [exact Ho|].
    apply (run_table_ok (FromOutput <$> os1) init Hinit).
  - intros m Hm. rewrite Forall_forall in Hids. exact (Hids m Hm).
  - intros b m Hb Hm. exact (run_outputs_filtered os init b Hb m Hm).
Qed.

Lemma session_table_last_write_wins_witness :
  entries "a"
    (outs (fst (run (FromOutput <$> [Samples.ev "a" "X"; Samples.ev "a" "Y"]) init)))
  = [WsMsg.mk "a" "Y" EmptyString].
Proof.
  destruct (session_table_last_write_wins [Samples.ev "a" "X"; Samples.ev "a" "Y"])
    as (_ & Hlast & _).
  apply (Hlast [Samples.ev "a" "X"] (Samples.ev "a" "Y") []).
  - reflexivity.
  - discriminate.
  - intros o' Ho'. inversion Ho'.
Defined.

(** C6 as stated fails for the empty id: two successive events with
    it leave no entry, not one holding the later payload. *)
Lemma session_ignores_events_without_id :
  entries EmptyString
    (outs (fst (run (FromOutput <$> [Samples.ev EmptyString "X"; Samples.ev EmptyString "Y"])
                  init)))
  = []
  /\ outs (fst (run (FromOutput <$> [Samples.ev EmptyString "X"; Samples.ev EmptyString "Y"])
                  init))
     = [].
Proof. split; reflexivity. Qed.

End SessionFacts.

(* --------------------------------------------------------------------- *)
(** ** The server file: the hub among the other goroutines                *)
(* --------------------------------------------------------------------- *)

Section HubFacts.

Import Hub.

Lemma sweeper_internal_frame (order : list (Conn * client)) (w w' : World) :
  sweeper_internal order w = Some w' -> exists p, w' = with_sweeper p w.
Proof.
  unfold sweeper_internal. intros H.
  destruct (sweeper w) as [|[|[connection cl] todo]|connection todo];
    try discriminate H.
  - injection H as <-. eauto.
  - injection H as <-. eauto.
  - destruct (_ >? _)%Z; injection H as <-; eauto.
Qed.

Lemma hub_internal_clients (w w' : World) :
  hub_internal w = Some w' -> clients w' = clients w.
Proof.
  unfold hub_internal. intros H.
  destruct (hub w) as [|message [|connection todo]|message connection todo
                       |message connection todo]; try discriminate H.
  - injection H as <-. reflexivity.
  - destruct (write_fails connection w); injection H as <-; reflexivity.
  - destruct (write_fails connection w); injection H as <-; reflexivity.
Qed.

(** [handlePing] overwrites the entry of a connection that is in the map,
    or does nothing. *)
Lemma refresh_spec (c : Conn) (order : list (Conn * client)) (w : World) :
  order ≡ₚ map_to_list (clients w) ->
  refresh c order w = w
  \/ exists connection cl,
       clients w !! connection = Some cl
       /\ refresh c order w
          = with_clients (<[connection := mkClient (now w)]> (clients w)) w.
Proof.
  intros Hperm. unfold refresh.
  destruct (list_find _ order) as [[i [connection cl]]|] eqn:Hf; [|left; reflexivity].
  right. exists connection, cl. split; [|reflexivity].
  apply list_find_Some in Hf as (Hi & _).
  apply elem_of_map_to_list. rewrite <- Hperm.
  eapply list_elem_of_lookup_2, Hi.
Qed.

Lemma refresh_frame (c : Conn) (order : list (Conn * client)) (w : World) :
  order ≡ₚ map_to_list (clients w) ->
  dom (clients (refresh c order w)) = dom (clients w)
  /\ hub (refresh c order w) = hub w
  /\ wire (refresh c order w) = wire w
  /\ closed (refresh c order w) = closed w.
Proof.
  intros Hperm.
  destruct (refresh_spec c order w Hperm) as [->|(connection & cl & Hin & ->)];
    [repeat split|].
  cbn. repeat split. rewrite dom_insert_L.
  apply subseteq_union_1_L, singleton_subseteq_l, elem_of_dom. eauto.
Qed.

Ltac unchanged := repeat (split; [reflexivity|]); reflexivity.

(** Only [runHub] receives, and it does so in its select: once it stands
    at its own send on [unregister], no step of the process moves it,
    nothing is written or closed any more, and no client is removed. *)
Lemma blocked_hub_stays Marshal (w w' : World) (l : Label)
    (message : string) (connection : Conn) (todo : list Conn) :
  hub w = HSendUnregister message connection todo ->
  step Marshal w l w' ->
  hub w' = hub w /\ wire w' = wire w /\ closed w' = closed w
  /\ dom (clients w) ⊆ dom (clients w').
Proof.
  intros Hhub Hstep.
  destruct Hstep as [w a m order Hoff Hrecv Hperm | w w' Hint
                    | w order w' Hperm Hint
                    | w c order i connection' client Hc Hperm Hfind
                    | w c connection' client l1 l2 Hl
                    | w c connection' stamped l1 l2 Hl
                    | w c Hc | w c ev p p' Hc Hev | w d Hd].
  - inversion Hrecv as [ch Hsel]. rewrite Hhub in Hsel. discriminate Hsel.
  - unfold hub_internal in Hint. rewrite Hhub in Hint. discriminate Hint.
  - apply sweeper_internal_frame in Hint as [p ->]. unchanged.
  - unchanged.
  - unchanged.
  - split; [reflexivity|]. split; [reflexivity|]. split; [reflexivity|].
    cbn. rewrite dom_insert_L. apply union_subseteq_r.
  - unchanged.
  - unchanged.
  - unchanged.
Qed.

Lemma blocked_hub_forever Marshal (w w' : World)
    (message : string) (connection : Conn) (todo : list Conn) :
  hub w = HSendUnregister message connection todo ->
  steps Marshal w w' ->
  hub w' = hub w /\ wire w' = wire w /\ closed w' = closed w
  /\ dom (clients w) ⊆ dom (clients w').
Proof.
  intros Hhub Hsteps. induction Hsteps as [w|w l w1 w2 Hstep _ IH]; [unchanged|].
  destruct (blocked_hub_stays Marshal w w1 l message connection todo Hhub Hstep)
    as (Hh & Hw & Hc & Hd).
  destruct IH as (Hh' & Hw' & Hc' & Hd'); [rewrite Hh; exact Hhub|].
  rewrite Hh', Hw', Hc', Hh, Hw, Hc.
  split; [reflexivity|]. split; [reflexivity|]. split; [reflexivity|].
  transitivity (dom (clients w1)); assumption.
Qed.

Lemma three_viewers_order :
  [1; 2; 3]%nat ≡ₚ elements (dom (clients Samples.three_viewers)).
Proof.
  apply NoDup_Permutation.
  - apply (bool_decide_unpack _). vm_compute. exact I.
  - apply NoDup_elements.
  - intros x. rewrite elem_of_elements. cbn. unfold Samples.viewers.
    rewrite !dom_insert_L, dom_empty_L. set_solver.
Qed.

(** C2, on the code.  Three viewers are registered and the write to the
    first one fails.  The hub takes the payload, visits the first viewer,
    and stands at its own send on [unregister]; from then on, whatever the
    other goroutines do, it stays there: the second and the third viewer
    never receive the payload, and the first is neither removed from the
    client set nor closed. *)
Theorem failed_write_blocks_the_hub :
  step Samples.Marshal Samples.three_viewers
       (LSync (ASession 1) AHub (ToBroadcast "[]")) Samples.ranging
  /\ step Samples.Marshal Samples.ranging (LInternal AHub) Samples.blocked
  /\ forall w, steps Samples.Marshal Samples.blocked w ->
       hub w = HSendUnregister "[]" 1%nat [2; 3]%nat
       /\ received 2%nat w = [] /\ received 3%nat w = []
       /\ 1%nat ∈ dom (clients w) /\ 1%nat ∉ closed w.
Proof.
  split; [|split].
  - exact (step_sync Samples.Marshal Samples.three_viewers (ASession 1) (ToBroadcast "[]")
             [1; 2; 3]%nat eq_refl
             (receiving_hub Samples.three_viewers broadcast eq_refl) three_viewers_order).
  - apply step_hub. reflexivity.
  - intros w Hsteps.
    destruct (blocked_hub_forever Samples.Marshal Samples.blocked w "[]" 1%nat [2; 3]%nat
                eq_refl Hsteps) as (Hh & Hw & Hc & Hd).
    unfold received. rewrite Hh, Hw, Hc.
    split; [reflexivity|]. split; [reflexivity|]. split; [reflexivity|]. split.
    + apply Hd. apply elem_of_dom. exists (mkClient 0). reflexivity.
    + apply not_elem_of_empty.
Qed.

Lemma failed_write_blocks_the_hub_witness :
  hub (with_now (now Samples.blocked + second) Samples.blocked)
  = HSendUnregister "[]" 1%nat [2; 3]%nat
  /\ received 2%nat (with_now (now Samples.blocked + second) Samples.blocked) = []
  /\ received 3%nat (with_now (now Samples.blocked + second) Samples.blocked) = []
  /\ 1%nat ∈ dom (clients (with_now (now Samples.blocked + second) Samples.blocked))
  /\ 1%nat ∉ closed (with_now (now Samples.blocked + second) Samples.blocked).
Proof.
  destruct failed_write_blocks_the_hub as (_ & _ & H).
  apply H. eapply steps_step; [|apply steps_refl].
  apply step_tick. unfold second. lia.
Defined.

Lemma one_viewer_order :
  [(1%nat, mkClient 0)] ≡ₚ map_to_list (clients Samples.one_viewer).
Proof.
  cbn. rewrite insert_empty, map_to_list_singleton. reflexivity.
Qed.

(** C5, on the code.  One viewer is registered, last seen five seconds
    ago, and sends a ping.  The goroutine [handlePing] starts for it finds
    the entry of the viewer and takes the time; meanwhile the sweeper
    submits the viewer to [unregister] and the hub deletes it, leaving the
    client set empty; then the goroutine stores its entry: a goroutine
    that is not the hub has written the client set, and the viewer the hub
    removed is in it again. *)
Theorem ping_store_races_with_the_hub :
  step Samples.Marshal Samples.one_viewer (LInternal (APing 1)) Samples.race_found
  /\ step Samples.Marshal Samples.race_found (LInternal (APing 1)) Samples.race_stamped
  /\ step Samples.Marshal Samples.race_stamped (LInternal ASweeper) Samples.race_sweeping
  /\ step Samples.Marshal Samples.race_sweeping (LInternal ASweeper) Samples.race_sending
  /\ step Samples.Marshal Samples.race_sending
          (LSync ASweeper AHub (ToUnregister 1)) Samples.race_removed
  /\ clients Samples.race_removed = ∅
  /\ step Samples.Marshal Samples.race_removed (LInternal (APing 1)) Samples.race_readded
  /\ clients Samples.race_readded !! 1%nat = Some (mkClient (5 * second)).
Proof.
  split; [|split; [|split; [|split; [|split; [|split; [|split]]]]]].
  - apply (step_ping_find Samples.Marshal Samples.one_viewer 1%nat
             [(1%nat, mkClient 0)] 0%nat 1%nat (mkClient 0)).
    + change (1%nat ∈ ({[1%nat]} : gset Conn)). apply elem_of_singleton_2. reflexivity.
    + exact one_viewer_order.
    + reflexivity.
  - exact (step_ping_stamp Samples.Marshal Samples.race_found 1%nat 1%nat (mkClient 0)
             [] [] eq_refl).
  - apply (step_sweeper Samples.Marshal Samples.race_stamped [(1%nat, mkClient 0)]).
    + exact one_viewer_order.
    + reflexivity.
  - apply (step_sweeper Samples.Marshal Samples.race_sweeping [(1%nat, mkClient 0)]).
    + exact one_viewer_order.
    + reflexivity.
  - assert (Hgone : hub_recv (ToUnregister 1%nat) (now Samples.race_sending)
                      (clients Samples.race_sending) = ∅).
    { cbn. apply delete_insert_id. apply lookup_empty. }
    pose proof (step_sync Samples.Marshal Samples.race_sending ASweeper (ToUnregister 1%nat)
                  [] eq_refl (receiving_hub Samples.race_sending unregister eq_refl)) as H.
    rewrite Hgone in H. rewrite dom_empty_L, elements_empty in H.
    exact (H (reflexivity _)).
  - reflexivity.
  - exact (step_ping_store Samples.Marshal Samples.race_removed 1%nat 1%nat
             (mkClient (5 * second)) [] [] eq_refl).
  - apply lookup_insert_eq.
Qed.

(** The same goroutine with nothing in between does what [refresh]
    says. *)
Lemma ping_uninterrupted Marshal (w : World) (c : Conn) (order : list (Conn * client))
    (i : nat) (connection : Conn) (client : client) :
  c ∈ pingers w ->
  order ≡ₚ map_to_list (clients w) ->
  list_find (fun kv => RemoteAddr w (fst kv) = RemoteAddr w c) order
  = Some (i, (connection, client)) ->
  steps Marshal w (with_refreshers (refreshers w) (refresh c order w)).
Proof.
  intros Hc Hperm Hfind.
  eapply steps_step;
    [exact (step_ping_find Marshal w c order i connection client Hc Hperm Hfind)|].
  eapply steps_step.
  { apply (step_ping_stamp Marshal _ c connection client (refreshers w) []). reflexivity. }
  eapply steps_step.
  { apply (step_ping_store Marshal _ c connection (mkClient (now w)) (refreshers w) []).
    reflexivity. }
  unfold refresh. rewrite Hfind. cbn. rewrite app_nil_r. apply steps_refl.
Qed.

End HubFacts.

(* --------------------------------------------------------------------- *)
(** ** Stopping an idle job, unregistering twice                          *)
(* --------------------------------------------------------------------- *)

(** C7 (as the code has it).  [StopJobById] does not look at the
    running flag: on a job of the registry, idle or running alike, it
    leaves the jobs, the lock, gocron, the settings, the error channel and
    the log as they are, sends one [{running: false}] for the job on the
    success channel, and cancels the job's context.  A second stop sends a
    second message and changes nothing else: the context is cancelled
    already.  And the [unregister] case of [runHub] taken twice for a
    client does what it does taken once, and changes nothing for a client
    that is not in the set. *)
Theorem stop_acts_on_idle_jobs_too :
  (forall (id : string) (s : Sched.t) (i : nat) (j : Job.t),
     Sched.find_Id id s = Some (i, j) ->
     let s1 := Sched.StopJobById id s in
     let s2 := Sched.StopJobById id s1 in
     let m := fun t => ChanMsg.mk (Schedule.Id (Job.Schedule j)) Sched.running_false t in
     (Sched.Jobs s1 = Sched.Jobs s
      /\ Sched.jmu s1 = Sched.jmu s
      /\ Sched.Gocron s1 = Sched.Gocron s
      /\ Sched.settings s1 = Sched.settings s
      /\ Sched.ErrorCh s1 = Sched.ErrorCh s
      /\ Sched.logged s1 = Sched.logged s
      /\ Sched.OutputCh s1 = Sched.OutputCh s ++ [m (Sched.clock s (Sched.ticks s))]
      /\ Sched.contexts s1 = <[Job.Cancel j := true]> (Sched.contexts s))
     /\ (Sched.Jobs s2 = Sched.Jobs s
         /\ Sched.contexts s2 = Sched.contexts s1
         /\ Sched.OutputCh s2
            = Sched.OutputCh s ++ [m (Sched.clock s (Sched.ticks s));
                                   m (Sched.clock s (S (Sched.ticks s)))]))
  /\ (forall (c : Hub.Conn) (t : Z) (cl : gmap Hub.Conn Hub.client),
        Hub.hub_recv (Hub.ToUnregister c) t (Hub.hub_recv (Hub.ToUnregister c) t cl)
        = Hub.hub_recv (Hub.ToUnregister c) t cl)
  /\ (forall (c : Hub.Conn) (t : Z) (cl : gmap Hub.Conn Hub.client),
        c ∉ dom cl -> Hub.hub_recv (Hub.ToUnregister c) t cl = cl).
Proof.
  split; [|split].
  - intros id s i j Hfind s1 s2 m.
    assert (H1 : s1 = Sched.cancel (Job.Cancel j)
                        (Sched.send_Output (m (Sched.clock s (Sched.ticks s)))
                           (Sched.set_ticks (S (Sched.ticks s)) s)))
      by exact (StopJobById_effects id s i j Hfind).
    assert (Hfind1 : Sched.find_Id id s1 = Some (i, j)).
    { rewrite H1. exact Hfind. }
    assert (H2 : s2 = Sched.cancel (Job.Cancel j)
                        (Sched.send_Output (m (Sched.clock s1 (Sched.ticks s1)))
                           (Sched.set_ticks (S (Sched.ticks s1)) s1)))
      by exact (StopJobById_effects id s1 i j Hfind1).
    split.
    + rewrite H1. repeat split.
    + rewrite H2. cbn [Sched.Jobs Sched.contexts Sched.OutputCh Sched.cancel
                       Sched.send_Output Sched.set_contexts Sched.set_OutputCh
                       Sched.set_ticks].
      rewrite H1. cbn [Sched.Jobs Sched.contexts Sched.OutputCh Sched.cancel
                       Sched.send_Output Sched.set_contexts Sched.set_OutputCh
                       Sched.set_ticks Sched.clock Sched.ticks].
      split; [reflexivity|]. split; [apply list_insert_insert_eq|].
      rewrite <- app_assoc. reflexivity.
  - intros c t cl. cbn. apply delete_delete_eq.
  - intros c t cl Hc. cbn. apply delete_id. apply not_elem_of_dom. exact Hc.
Qed.

Lemma stop_acts_on_idle_jobs_too_witness :
  Sched.Jobs (Sched.StopJobById "s1" Samples.idle_s1) = Sched.Jobs Samples.idle_s1
  /\ Sched.OutputCh (Sched.StopJobById "s1" (Sched.StopJobById "s1" Samples.idle_s1))
     = [ChanMsg.mk "s1" Sched.running_false Samples.noon;
        ChanMsg.mk "s1" Sched.running_false Samples.noon]
  /\ Sched.contexts (Sched.StopJobById "s1" Samples.idle_s1) = [true]
  /\ Hub.hub_recv (Hub.ToUnregister 2%nat) 0 (Hub.clients Samples.one_viewer)
     = Hub.clients Samples.one_viewer.
Proof.
  destruct stop_acts_on_idle_jobs_too as (Hstop & _ & Habsent).
  destruct (Hstop "s1" Samples.idle_s1 0%nat
              (Samples.job 0 "s1" "*/5 * * * *" false) eq_refl)
    as ((Hjobs & _ & _ & _ & _ & _ & _ & Hctx) & (_ & _ & Hout)).
  split; [exact Hjobs|]. split; [exact Hout|]. split; [exact Hctx|].
  apply Habsent. cbn. rewrite dom_insert_L, dom_empty_L.
  intros Hin. apply elem_of_union in Hin as [Hin|Hin].
  - apply elem_of_singleton in Hin. discriminate Hin.
  - exact (not_elem_of_empty _ Hin).
Defined.

(** C7 as stated fails: the job "s1" is idle, and stopping it is no
    no-op: the success channel, empty before, has received a message, and
    the context of the job, live before, is cancelled. *)
Lemma stop_of_an_idle_job_is_no_noop :
  Sched.find_Id "s1" Samples.idle_s1 = Some (0%nat, Samples.job 0 "s1" "*/5 * * * *" false)
  /\ Job.Running (Samples.job 0 "s1" "*/5 * * * *" false) = false
  /\ Sched.StopJobById "s1" Samples.idle_s1 <> Samples.idle_s1
  /\ Sched.OutputCh Samples.idle_s1 = []
  /\ Sched.OutputCh (Sched.StopJobById "s1" Samples.idle_s1)
     = [ChanMsg.mk "s1" Sched.running_false Samples.noon]
  /\ Sched.contexts Samples.idle_s1 = [false]
  /\ Sched.contexts (Sched.StopJobById "s1" Samples.idle_s1) = [true].
Proof.
  split; [reflexivity|]. split; [reflexivity|]. split.
  - intros Heq.
    assert (H : Sched.contexts (Sched.StopJobById "s1" Samples.idle_s1)
                = Sched.contexts Samples.idle_s1) by (rewrite Heq; reflexivity).
    discriminate H.
  - repeat split.
Qed.

(* ===================================================================== *)
(** * Part III.  Further properties of the code                           *)
(* ===================================================================== *)

(* --------------------------------------------------------------------- *)
(** ** internal/scheduler.go: the registry between two rebuilds           *)
(* --------------------------------------------------------------------- *)

Section SchedulerMore.

Import Sched.

Ltac run_method :=
  unfold RunJobById, StopJobById, DeleteRunningJob, SetRunningJob, RecreateCtx,
    BeforeJobRuns, AfterJobRuns, AfterJobRunsWithError,
    time_Now, send_Output, WithCancel, cancel, mu_Lock, mu_Unlock, store_Job,
    store_Jobs, log, find_Id, find_Name;
  cbn [Gocron Jobs jmu settings OutputCh ErrorCh logged contexts clock ticks
       set_Gocron set_Jobs set_jmu set_settings set_OutputCh set_logged
       set_contexts set_ticks].

(** A store into a field that is no part of the identity of a job. *)
Lemma identity_alter (f : Job.t -> Job.t) (i : nat) (l : list Job.t) :
  (forall j, identity (f j) = identity j) ->
  identity <$> alter f i l = identity <$> l.
Proof.
  intros Hf. apply list_eq. intros k.
  rewrite !list_lookup_fmap, list_lookup_alter.
  destruct (decide (i = k)) as [->|Hne]; [|reflexivity].
  destruct (l !! k) as [j|]; cbn; [rewrite Hf|]; reflexivity.
Qed.

(** Looking a job up after such a store. *)
Lemma list_find_alter_same (P : Job.t -> Prop) `{forall j, Decision (P j)}
    (f : Job.t -> Job.t) (i : nat) (l : list Job.t) :
  (forall j, P (f j) <-> P j) ->
  list_find P (alter f i l)
  = (fun p => (fst p, if decide (fst p = i) then f (snd p) else snd p)) <$> list_find P l.
Proof.
  intros Hf. revert i. induction l as [|x l IH]; intros i; [reflexivity|].
  destruct i as [|i]; cbn [alter list_alter list_find].
  - destruct (decide (P x)) as [Hx|Hx].
    + rewrite decide_True by (apply Hf, Hx). reflexivity.
    + rewrite decide_False by (rewrite Hf; exact Hx).
      destruct (list_find P l) as [[k y]|]; reflexivity.
  - destruct (decide (P x)) as [Hx|Hx]; [reflexivity|].
    change (list_alter f i l) with (alter f i l). rewrite IH.
    destruct (list_find P l) as [[k y]|]; cbn; [|reflexivity].
    destruct (decide (k = i)) as [->|Hne].
    + rewrite decide_True by reflexivity. reflexivity.
    + rewrite decide_False by lia. reflexivity.
Qed.

Lemma identity_set_Running b j : identity (Job.set_Running b j) = identity j.
Proof. reflexivity. Qed.
Lemma identity_set_Force b j : identity (Job.set_Force b j) = identity j.
Proof. reflexivity. Qed.
Lemma identity_set_Ctx c j : identity (Job.set_Ctx c j) = identity j.
Proof. reflexivity. Qed.
Lemma identity_set_Cancel c j : identity (Job.set_Cancel c j) = identity j.
Proof. reflexivity. Qed.

Lemma RunJobById_identity lib id s :
  identity <$> Jobs (RunJobById lib id s) = identity <$> Jobs s.
Proof.
  unfold RunJobById, find_Id. destruct (list_find _ _) as [[i j]|]; [|reflexivity].
  unfold gocron.RunNow. cbn [Gocron log set_logged store_Job set_jmu set_Jobs].
  destruct (gocron.RunNow_err _ _ _); cbn; apply identity_alter, identity_set_Force.
Qed.

Lemma StopJobById_Jobs id s : Jobs (StopJobById id s) = Jobs s.
Proof.
  unfold StopJobById, find_Id. destruct (list_find _ _) as [[i j]|]; reflexivity.
Qed.

Lemma SetRunningJob_identity id s :
  identity <$> Jobs (SetRunningJob id s) = identity <$> Jobs s.
Proof.
  run_method. destruct (list_find _ _) as [[i j]|]; cbn; [|reflexivity].
  apply identity_alter, identity_set_Running.
Qed.

Lemma DeleteRunningJob_identity id s :
  identity <$> Jobs (DeleteRunningJob id s) = identity <$> Jobs s.
Proof.
  run_method. destruct (list_find _ _) as [[i j]|]; cbn; [|reflexivity].
  rewrite !identity_alter; [reflexivity|apply identity_set_Running|apply identity_set_Force].
Qed.

Lemma RecreateCtx_identity name s :
  identity <$> Jobs (RecreateCtx name s) = identity <$> Jobs s.
Proof.
  run_method. destruct (list_find _ _) as [[i j]|]; cbn; [|reflexivity].
  rewrite !identity_alter; [reflexivity|apply identity_set_Ctx|apply identity_set_Cancel].
Qed.

(** X1.  Only a rebuild changes which jobs the registry holds: the
    triggers, the flag setters, the context renewal and the three
    listeners leave the id, the gocron job and the schedule of every job,
    and their order, as they are. *)
Theorem methods_keep_the_jobs :
  forall (lib : gocron.Lib) (id err : string) (s : t),
    identity <$> Jobs (RunJobById lib id s) = identity <$> Jobs s
    /\ identity <$> Jobs (StopJobById id s) = identity <$> Jobs s
    /\ identity <$> Jobs (SetRunningJob id s) = identity <$> Jobs s
    /\ identity <$> Jobs (DeleteRunningJob id s) = identity <$> Jobs s
    /\ identity <$> Jobs (RecreateCtx id s) = identity <$> Jobs s
    /\ identity <$> Jobs (BeforeJobRuns id s) = identity <$> Jobs s
    /\ identity <$> Jobs (AfterJobRuns id s) = identity <$> Jobs s
    /\ identity <$> Jobs (AfterJobRunsWithError id err s) = identity <$> Jobs s.
Proof.
  intros lib id err s.
  split; [apply RunJobById_identity|].
  split; [rewrite StopJobById_Jobs; reflexivity|].
  split; [apply SetRunningJob_identity|].
  split; [apply DeleteRunningJob_identity|].
  split; [apply RecreateCtx_identity|].
  split; [|split].
  - unfold BeforeJobRuns, time_Now. rewrite SetRunningJob_identity. reflexivity.
  - unfold AfterJobRuns, time_Now. cbn [Jobs set_settings].
    rewrite RecreateCtx_identity, DeleteRunningJob_identity. reflexivity.
  - unfold AfterJobRunsWithError, time_Now. cbn [Jobs set_settings].
    rewrite RecreateCtx_identity, DeleteRunningJob_identity. reflexivity.
Qed.

Lemma alter_insert (f : Job.t -> Job.t) (i : nat) (l : list Job.t) (j : Job.t) :
  l !! i = Some j -> alter f i l = <[i := f j]> l.
Proof.
  intros Hi. apply list_eq. intros k. rewrite list_lookup_alter.
  destruct (decide (i = k)) as [->|Hne].
  - rewrite Hi, list_lookup_insert_eq by (eapply lookup_lt_Some, Hi). reflexivity.
  - rewrite list_lookup_insert_ne by exact Hne. reflexivity.
Qed.

Lemma find_Id_lookup (id : string) (s : t) (i : nat) (j : Job.t) :
  find_Id id s = Some (i, j) -> Jobs s !! i = Some j.
Proof. unfold find_Id. intros H. apply list_find_Some in H. tauto. Qed.

Lemma SetRunningJob_Jobs (id : string) (s : t) (i : nat) (j : Job.t) :
  find_Id id s = Some (i, j) ->
  Jobs (SetRunningJob id s) = <[i := Job.set_Running true j]> (Jobs s).
Proof.
  intros Hf. pose proof (find_Id_lookup _ _ _ _ Hf) as Hi.
  revert Hf. run_method. intros ->. cbn. apply alter_insert, Hi.
Qed.

Lemma DeleteRunningJob_Jobs (id : string) (s : t) (i : nat) (j : Job.t) :
  find_Id id s = Some (i, j) ->
  Jobs (DeleteRunningJob id s)
  = <[i := Job.set_Force false (Job.set_Running false j)]> (Jobs s).
Proof.
  intros Hf. pose proof (find_Id_lookup _ _ _ _ Hf) as Hi.
  revert Hf. run_method. intros ->. cbn.
  rewrite (alter_insert _ i (Jobs s) j Hi).
  rewrite (alter_insert _ i _ (Job.set_Running false j)).
  - apply list_insert_insert_eq.
  - apply list_lookup_insert_eq. eapply lookup_lt_Some, Hi.
Qed.

Lemma RecreateCtx_effects (name : string) (s : t) (i : nat) (j : Job.t) :
  find_Name name s = Some (i, j) ->
  let c := length (contexts s) in
  Jobs (RecreateCtx name s) = <[i := Job.set_Cancel c (Job.set_Ctx c j)]> (Jobs s)
  /\ contexts (RecreateCtx name s) = contexts s ++ [false].
Proof.
  intros Hf. assert (Hi : Jobs s !! i = Some j).
  { unfold find_Name in Hf. apply list_find_Some in Hf. tauto. }
  revert Hf. run_method. intros ->. cbn. split; [|reflexivity].
  rewrite (alter_insert _ i (Jobs s) j Hi).
  rewrite (alter_insert _ i _ (Job.set_Ctx (length (contexts s)) j)).
  - apply list_insert_insert_eq.
  - apply list_lookup_insert_eq. eapply lookup_lt_Some, Hi.
Qed.

Lemma RecreateCtx_absent (name : string) (s : t) :
  find_Name name s = None -> RecreateCtx name s = s.
Proof. unfold RecreateCtx. intros ->. reflexivity. Qed.

(** In a registry whose jobs go by the name of their gocron job, the two
    lookups agree. *)
Lemma find_Name_Id (id : string) (s : t) :
  Forall (fun j => gocron.Name (Job.job j) = Job.Id j) (Jobs s) ->
  find_Name id s = find_Id id s.
Proof.
  unfold find_Name, find_Id. induction 1 as [|j l Hj _ IH]; [reflexivity|].
  cbn. rewrite Hj. destruct (decide (Job.Id j = id)); [reflexivity|].
  rewrite IH. reflexivity.
Qed.

Lemma well_formed_names (s : t) :
  well_formed s -> Forall (fun j => gocron.Name (Job.job j) = Job.Id j) (Jobs s).
Proof. unfold well_formed. intros H. eapply Forall_impl; [exact H|]. cbn. tauto. Qed.

Lemma list_find_insert_same (P : Job.t -> Prop) `{forall j, Decision (P j)}
    (l : list Job.t) (i : nat) (j j' : Job.t) :
  list_find P l = Some (i, j) -> P j' ->
  list_find P (<[i := j']> l) = Some (i, j').
Proof.
  intros Hf Hid. apply list_find_Some in Hf as (Hi & _ & Hbefore).
  apply list_find_Some. split; [|split].
  - apply list_lookup_insert_eq. eapply lookup_lt_Some, Hi.
  - exact Hid.
  - intros k y Hk Hlt. rewrite list_lookup_insert_ne in Hk by lia.
    exact (Hbefore k y Hk Hlt).
Qed.

Lemma SetRunningJob_absent (id : string) (s : t) :
  find_Id id s = None -> Jobs (SetRunningJob id s) = Jobs s.
Proof. run_method. intros ->. reflexivity. Qed.

Lemma DeleteRunningJob_absent (id : string) (s : t) :
  find_Id id s = None -> Jobs (DeleteRunningJob id s) = Jobs s.
Proof. run_method. intros ->. reflexivity. Qed.

(** X2.  Marking a job running, or clearing it, a second time changes
    nothing in the registry. *)
Theorem flag_setters_idempotent :
  forall (id : string) (s : t),
    Jobs (SetRunningJob id (SetRunningJob id s)) = Jobs (SetRunningJob id s)
    /\ Jobs (DeleteRunningJob id (DeleteRunningJob id s)) = Jobs (DeleteRunningJob id s).
Proof.
  intros id s. destruct (find_Id id s) as [[i j]|] eqn:Hf.
  - pose proof (find_Id_lookup _ _ _ _ Hf) as Hi.
    assert (Hid : Job.Id j = id).
    { unfold find_Id in Hf. apply list_find_Some in Hf. tauto. }
    split.
    + assert (Hf' : find_Id id (SetRunningJob id s) = Some (i, Job.set_Running true j)).
      { unfold find_Id. rewrite (SetRunningJob_Jobs id s i j Hf).
        apply (list_find_insert_same _ (Jobs s) i j); [exact Hf|exact Hid]. }
      rewrite (SetRunningJob_Jobs _ _ _ _ Hf'), (SetRunningJob_Jobs _ _ _ _ Hf).
      rewrite list_insert_insert_eq. reflexivity.
    + assert (Hf' : find_Id id (DeleteRunningJob id s)
                    = Some (i, Job.set_Force false (Job.set_Running false j))).
      { unfold find_Id. rewrite (DeleteRunningJob_Jobs id s i j Hf).
        apply (list_find_insert_same _ (Jobs s) i j); [exact Hf|exact Hid]. }
      rewrite (DeleteRunningJob_Jobs _ _ _ _ Hf'), (DeleteRunningJob_Jobs _ _ _ _ Hf).
      rewrite list_insert_insert_eq. reflexivity.
  - pose proof (SetRunningJob_absent id s Hf) as H1.
    pose proof (DeleteRunningJob_absent id s Hf) as H2.
    split.
    + rewrite SetRunningJob_absent; [reflexivity|].
      unfold find_Id. rewrite H1. exact Hf.
    + rewrite DeleteRunningJob_absent; [reflexivity|].
      unfold find_Id. rewrite H2. exact Hf.
Qed.

Lemma SetRunningJob_frame (id : string) (s : t) :
  let s' := SetRunningJob id s in
  OutputCh s' = OutputCh s /\ ErrorCh s' = ErrorCh s /\ settings s' = settings s
  /\ contexts s' = contexts s /\ ticks s' = ticks s /\ clock s' = clock s
  /\ Gocron s' = Gocron s.
Proof.
  run_method. destruct (list_find _ _) as [[i j]|]; cbn; repeat split.
Qed.

(** X3.  One run of a job of a well-formed registry, as its listeners
    see it: the before-run listener marks the job running; the after-run
    listener leaves it idle and not forced, with a new context that is not
    cancelled; the other jobs are not touched, and the success channel has
    received [{running: true}] and then [{running: false}] for the job. *)
Theorem run_cycle_returns_to_idle :
  forall (id : string) (s : t) (i : nat) (j : Job.t),
    well_formed s ->
    find_Id id s = Some (i, j) ->
    let s1 := BeforeJobRuns id s in
    let s2 := AfterJobRuns id s1 in
    let c := length (contexts s) in
    Jobs s1 = <[i := Job.set_Running true j]> (Jobs s)
    /\ Jobs s2 = <[i := Job.mk (Job.Id j) (Job.job j) (Job.Schedule j) false false c c]>
                   (Jobs s)
    /\ contexts s2 = contexts s ++ [false]
    /\ OutputCh s2 = OutputCh s ++ [ChanMsg.mk id running_true (clock s (ticks s));
                                    ChanMsg.mk id running_false (clock s (S (ticks s)))].
Proof.
  intros id s i j Hwf Hf s1 s2 c.
  pose proof (find_Id_lookup _ _ _ _ Hf) as Hi.
  assert (Hid : Job.Id j = id).
  { unfold find_Id in Hf. apply list_find_Some in Hf. tauto. }
  assert (Hname : gocron.Name (Job.job j) = Job.Id j).
  { apply well_formed_names in Hwf. rewrite Forall_forall in Hwf.
    apply Hwf. eapply list_elem_of_lookup_2, Hi. }
  (* before the run *)
  assert (H1 : Jobs s1 = <[i := Job.set_Running true j]> (Jobs s)).
  { subst s1. unfold BeforeJobRuns, time_Now.
    rewrite (SetRunningJob_Jobs id _ i j); [reflexivity|exact Hf]. }
  destruct (SetRunningJob_frame id
              (log Debug "before job run" ["id"; id]
                 (send_Output (ChanMsg.mk id running_true (clock s (ticks s)))
                    (set_ticks (S (ticks s)) s)))) as (Ho1 & _ & _ & Hc1 & Ht1 & Hk1 & _).
  change (OutputCh s1 = OutputCh s ++ [ChanMsg.mk id running_true (clock s (ticks s))])
    in Ho1.
  change (contexts s1 = contexts s) in Hc1.
  change (ticks s1 = S (ticks s)) in Ht1.
  change (clock s1 = clock s) in Hk1.
  (* after the run *)
  set (j1 := Job.set_Running true j) in *.
  set (j2 := Job.set_Force false (Job.set_Running false j1)).
  set (sA := log Debug "after job run" ["res"; "success"; "id"; id]
               (send_Output (ChanMsg.mk id running_false (clock s1 (ticks s1)))
                  (set_ticks (S (ticks s1)) s1))).
  assert (HfA : find_Id id sA = Some (i, j1)).
  { unfold find_Id. change (Jobs sA) with (Jobs s1). rewrite H1.
    apply (list_find_insert_same _ (Jobs s) i j); [exact Hf|exact Hid]. }
  pose proof (DeleteRunningJob_Jobs id sA i j1 HfA) as HB.
  change (Jobs sA) with (Jobs s1) in HB. rewrite H1, list_insert_insert_eq in HB.
  destruct (DeleteRunningJob_frame id sA) as (HoB & _ & _ & HcB & _).
  set (sB := DeleteRunningJob id sA) in *.
  assert (HfB : find_Name id sB = Some (i, j2)).
  { rewrite find_Name_Id.
    - unfold find_Id. rewrite HB.
      apply (list_find_insert_same _ (Jobs s) i j); [exact Hf|exact Hid].
    - rewrite HB. apply Forall_insert; [apply well_formed_names, Hwf|exact Hname]. }
  destruct (RecreateCtx_effects id sB i j2 HfB) as (HC & HcC).
  destruct (RecreateCtx_frame id sB) as (HoC & _).
  assert (Hs2 : s2 = set_settings (Settings.SetLastRun id EmptyString
                                     (settings (RecreateCtx id sB)))
                       (RecreateCtx id sB)) by reflexivity.
  rewrite Hs2. cbn [Jobs contexts OutputCh set_settings].
  split; [exact H1|]. rewrite HC, HcC, HoC, HoB, HcB, HB, list_insert_insert_eq.
  subst sA. cbn [contexts OutputCh log send_Output set_logged set_OutputCh set_ticks].
  rewrite Hc1, Ho1, Ht1, Hk1. fold c. rewrite <- app_assoc. repeat split.
Qed.

Lemma idle_s1_well_formed : well_formed Samples.idle_s1.
Proof.
  unfold well_formed. cbn. constructor; [|constructor].
  cbn. repeat split. lia.
Defined.

Lemma run_cycle_returns_to_idle_witness :
  Jobs (AfterJobRuns "s1" (BeforeJobRuns "s1" Samples.idle_s1))
  = [Job.mk "s1" (Samples.gjob 0 "s1" "*/5 * * * *") (Samples.sched "s1" "*/5 * * * *")
       false false 1 1]
  /\ contexts (AfterJobRuns "s1" (BeforeJobRuns "s1" Samples.idle_s1)) = [false; false].
Proof.
  destruct (run_cycle_returns_to_idle "s1" Samples.idle_s1 0%nat
              (Samples.job 0 "s1" "*/5 * * * *" false) idle_s1_well_formed eq_refl)
    as (_ & Hjobs & Hctx & _).
  split; [exact Hjobs|exact Hctx].
Defined.

(** X4.  [FindJobById] hands out the first job with the id, and nil
    exactly when no job has it; the registry is as before. *)
Theorem FindJobById_finds_first :
  forall (id : string) (s : t),
    Jobs (snd (FindJobById id s)) = Jobs s
    /\ (fst (FindJobById id s) = None <-> id ∉ (Job.Id <$> Jobs s))
    /\ (forall j, fst (FindJobById id s) = Some j ->
          exists i, Jobs s !! i = Some j /\ Job.Id j = id
                    /\ forall k j', Jobs s !! k = Some j' -> (k < i)%nat -> Job.Id j' <> id).
Proof.
  intros id s. unfold FindJobById, find_Id, mu_Lock, mu_Unlock.
  cbn [fst snd Jobs set_jmu]. split; [reflexivity|]. split.
  - destruct (list_find _ (Jobs s)) as [[i j]|] eqn:Hf; cbn.
    + split; [discriminate|]. intros Hid. exfalso. apply Hid.
      apply list_find_Some in Hf as (Hi & Hj & _). rewrite <- Hj.
      apply list_elem_of_fmap. exists j. split; [reflexivity|].
      eapply list_elem_of_lookup_2, Hi.
    + split; [|reflexivity]. intros _ Hid.
      apply list_find_None in Hf. rewrite Forall_forall in Hf.
      apply list_elem_of_fmap in Hid as (j & Hj & Hin). exact (Hf j Hin (eq_sym Hj)).
  - intros j. destruct (list_find _ (Jobs s)) as [[i j0]|] eqn:Hf; cbn; [|discriminate].
    intros Heq. injection Heq as ->. apply list_find_Some in Hf as (Hi & Hj & Hb).
    exists i. auto.
Qed.

Lemma FindJobById_finds_first_witness :
  exists i, Jobs Samples.idle_s1 !! i = Some (Samples.job 0 "s1" "*/5 * * * *" false)
            /\ Job.Id (Samples.job 0 "s1" "*/5 * * * *" false) = "s1"
            /\ forall k j', Jobs Samples.idle_s1 !! k = Some j' -> (k < i)%nat ->
                            Job.Id j' <> "s1".
Proof.
  destruct (FindJobById_finds_first "s1" Samples.idle_s1) as (_ & _ & H).
  exact (H (Samples.job 0 "s1" "*/5 * * * *" false) eq_refl).
Defined.

(** X5.  The four methods that take [jmu] release it on every path, and
    store into the registry only in between. *)
Theorem locking_methods_release_the_lock :
  forall (id : string) (s : t),
    events_of (SetRunningJob id) s
    = match find_Id id s with
      | Some _ => [Lock; Store; Unlock]
      | None => [Lock; Unlock]
      end
    /\ events_of (DeleteRunningJob id) s
       = match find_Id id s with
         | Some _ => [Lock; Store; Store; Unlock]
         | None => [Lock; Unlock]
         end
    /\ events_of (fun s => snd (FindJobById id s)) s = [Lock; Unlock]
    /\ events_of (fun s => snd (GetRunningJobs s)) s = [Lock; Unlock].
Proof.
  intros id s. unfold events_of, SetRunningJob, DeleteRunningJob, FindJobById,
    GetRunningJobs, mu_Lock, mu_Unlock, store_Job, log, find_Id.
  cbn [snd jmu Jobs set_jmu set_logged set_Jobs].
  destruct (list_find _ (Jobs s)) as [[i j]|];
    cbn [jmu set_jmu set_logged set_Jobs];
    rewrite <- ?app_assoc, !drop_app_length; repeat split.
Qed.

(** X6.  A manual trigger of a job of the registry sets its forced flag
    and asks gocron for a run of its gocron job; when gocron refuses, the
    error is logged, no run is requested, and the flag stays set.  The
    trigger itself sends nothing on the channels. *)
Theorem RunJobById_forces_and_requests :
  forall (lib : gocron.Lib) (id : string) (s : t) (i : nat) (j : Job.t),
    find_Id id s = Some (i, j) ->
    let s' := RunJobById lib id s in
    Jobs s' = <[i := Job.set_Force true j]> (Jobs s)
    /\ OutputCh s' = OutputCh s /\ ErrorCh s' = ErrorCh s
    /\ match gocron.RunNow_err lib (Gocron s) (Job.job j) with
       | None =>
           gocron.runNow (Gocron s') = gocron.runNow (Gocron s) ++ [gocron.ID (Job.job j)]
           /\ logged s' = logged s ++ [mkLog Info "Running job manually" ["id"; id]]
       | Some e =>
           Gocron s' = Gocron s
           /\ logged s' = logged s ++ [mkLog Info "Running job manually" ["id"; id];
                                       mkLog Error "Error running job manually"
                                         ["id"; id; "err"; e]]
       end.
Proof.
  intros lib id s i j Hf s'. subst s'.
  pose proof (find_Id_lookup _ _ _ _ Hf) as Hi.
  unfold RunJobById. rewrite Hf. unfold gocron.RunNow.
  cbn [Gocron log set_logged store_Job set_jmu set_Jobs].
  destruct (gocron.RunNow_err lib (Gocron s) (Job.job j)) as [e|];
    cbn; rewrite (alter_insert _ i (Jobs s) j Hi), <- ?app_assoc; repeat split.
Qed.

Lemma RunJobById_forces_and_requests_witness :
  Jobs (RunJobById (Samples.lib_rejecting "bad") "s1" Samples.idle_s1)
  = [Job.set_Force true (Samples.job 0 "s1" "*/5 * * * *" false)]
  /\ gocron.runNow (Gocron (RunJobById (Samples.lib_rejecting "bad") "s1" Samples.idle_s1))
     = [0%nat].
Proof.
  destruct (RunJobById_forces_and_requests (Samples.lib_rejecting "bad") "s1"
              Samples.idle_s1 0%nat (Samples.job 0 "s1" "*/5 * * * *" false) eq_refl)
    as (Hjobs & _ & _ & Hrun & _).
  split; [exact Hjobs|exact Hrun].
Defined.

(** X7.  A stop followed by the renewal of the context leaves the job
    with a context that is not cancelled, while the context it had stays
    cancelled: a context is never used again. *)
Theorem stop_then_recreate_is_live :
  forall (id : string) (s : t) (i : nat) (j : Job.t),
    well_formed s ->
    find_Id id s = Some (i, j) ->
    let s' := RecreateCtx id (StopJobById id s) in
    let c := length (contexts s) in
    Jobs s' = <[i := Job.set_Cancel c (Job.set_Ctx c j)]> (Jobs s)
    /\ contexts s' !! c = Some false
    /\ contexts s' !! Job.Ctx j = Some true
    /\ (forall k, k <> Job.Ctx j -> (k < c)%nat -> contexts s' !! k = contexts s !! k).
Proof.
  intros id s i j Hwf Hf s' c.
  pose proof (find_Id_lookup _ _ _ _ Hf) as Hi.
  assert (Hj : Job.Cancel j = Job.Ctx j /\ (Job.Ctx j < length (contexts s))%nat).
  { unfold well_formed in Hwf. rewrite Forall_forall in Hwf.
    destruct (Hwf j) as (_ & H1 & H2); [eapply list_elem_of_lookup_2, Hi|auto]. }
  destruct Hj as [Hcancel Hlt].
  assert (Hstop : StopJobById id s
                  = cancel (Job.Cancel j)
                      (send_Output
                         (ChanMsg.mk (Schedule.Id (Job.Schedule j)) running_false
                            (clock s (ticks s)))
                         (set_ticks (S (ticks s)) s))).
  { unfold StopJobById. rewrite Hf. reflexivity. }
  assert (Hfn : find_Name id (StopJobById id s) = Some (i, j)).
  { rewrite find_Name_Id.
    - unfold find_Id. rewrite Hstop. exact Hf.
    - rewrite Hstop. exact (well_formed_names s Hwf). }
  destruct (RecreateCtx_effects id (StopJobById id s) i j Hfn) as (HJ & HC).
  fold s' in HJ, HC.
  assert (Hctx : contexts (StopJobById id s) = <[Job.Ctx j := true]> (contexts s)).
  { rewrite Hstop, Hcancel. reflexivity. }
  assert (Hlen : length (contexts (StopJobById id s)) = c).
  { rewrite Hctx, length_insert. reflexivity. }
  rewrite Hlen in HJ. rewrite HC, Hctx.
  split; [rewrite HJ, Hstop; reflexivity|]. split; [|split].
  - rewrite lookup_app_r by (rewrite length_insert; fold c; lia).
    rewrite length_insert. fold c. rewrite Nat.sub_diag. reflexivity.
  - rewrite lookup_app_l by (rewrite length_insert; exact Hlt).
    apply list_lookup_insert_eq, Hlt.
  - intros k Hne Hk. rewrite lookup_app_l by (rewrite length_insert; exact Hk).
    apply list_lookup_insert_ne. auto.
Qed.

Lemma stop_then_recreate_is_live_witness :
  contexts (RecreateCtx "s1" (StopJobById "s1" Samples.idle_s1)) !! 1%nat = Some false
  /\ contexts (RecreateCtx "s1" (StopJobById "s1" Samples.idle_s1)) !! 0%nat = Some true.
Proof.
  destruct (stop_then_recreate_is_live "s1" Samples.idle_s1 0%nat
              (Samples.job 0 "s1" "*/5 * * * *" false) idle_s1_well_formed eq_refl)
    as (_ & Hnew & Hold & _).
  split; [exact Hnew|exact Hold].
Defined.

(** X8.  The listeners report on the success channel whether or not the
    registry has a job of the name they are called with; for a name it
    does not have, the registry and the contexts stay as they are. *)
Theorem listeners_report_unknown_jobs :
  forall (name : string) (s : t),
    well_formed s ->
    name ∉ (Job.Id <$> Jobs s) ->
    (Jobs (BeforeJobRuns name s) = Jobs s
     /\ OutputCh (BeforeJobRuns name s)
        = OutputCh s ++ [ChanMsg.mk name running_true (clock s (ticks s))])
    /\ (Jobs (AfterJobRuns name s) = Jobs s
        /\ contexts (AfterJobRuns name s) = contexts s
        /\ OutputCh (AfterJobRuns name s)
           = OutputCh s ++ [ChanMsg.mk name running_false (clock s (ticks s))]).
Proof.
  intros name s Hwf Hid.
  assert (Hf : find_Id name s = None).
  { unfold find_Id. apply list_find_None, Forall_forall. intros j Hj Heq.
    apply Hid. rewrite <- Heq. apply list_elem_of_fmap. exists j. auto. }
  split.
  - unfold BeforeJobRuns, time_Now.
    match goal with |- context [SetRunningJob name ?s0] =>
      destruct (SetRunningJob_frame name s0) as (Ho & _);
      rewrite Ho, (SetRunningJob_absent name s0 Hf) end.
    split; reflexivity.
  - unfold AfterJobRuns, time_Now. cbn [Jobs contexts OutputCh set_settings].
    match goal with |- context [DeleteRunningJob name ?s0] =>
      set (sA := s0);
      destruct (DeleteRunningJob_frame name sA) as (Ho & _ & _ & Hc & _);
      pose proof (DeleteRunningJob_absent name sA Hf) as HJ end.
    assert (Hfn : find_Name name (DeleteRunningJob name sA) = None).
    { rewrite find_Name_Id.
      - unfold find_Id. rewrite HJ. exact Hf.
      - rewrite HJ. apply well_formed_names, Hwf. }
    rewrite (RecreateCtx_absent _ _ Hfn), HJ, Hc, Ho. repeat split.
Qed.

Lemma listeners_report_unknown_jobs_witness :
  OutputCh (BeforeJobRuns "gone" Samples.idle_s1)
  = [ChanMsg.mk "gone" running_true Samples.noon]
  /\ Jobs (AfterJobRuns "gone" Samples.idle_s1) = Jobs Samples.idle_s1.
Proof.
  assert (H : "gone" ∉ (Job.Id <$> Jobs Samples.idle_s1)).
  { cbn. intros Hin. apply list_elem_of_singleton in Hin. discriminate Hin. }
  destruct (listeners_report_unknown_jobs "gone" Samples.idle_s1 idle_s1_well_formed H)
    as ((_ & Hout) & (Hjobs & _)).
  split; [exact Hout|exact Hjobs].
Defined.

(** One turn of the rebuild, on the registry, the contexts and the
    immediate-run requests. *)
Lemma reschedule_one_contexts lib (s : t) (x : Schedule.t) :
  gocron.runNow (Gocron (reschedule_one lib s x)) = gocron.runNow (Gocron s)
  /\ ((Jobs (reschedule_one lib s x) = Jobs s
       /\ contexts (reschedule_one lib s x) = contexts s)
      \/ exists j,
           Jobs (reschedule_one lib s x) = Jobs s ++ [j]
           /\ contexts (reschedule_one lib s x) = contexts s ++ [false]
           /\ Job.Ctx j = length (contexts s)
           /\ Job.Cancel j = Job.Ctx j
           /\ gocron.Name (Job.job j) = Job.Id j
           /\ Job.Running j = false /\ Job.Force j = false).
Proof.
  unfold reschedule_one, time_Now, gocron.NewJob. cbn [Gocron set_ticks].
  destruct (gocron.NewJob_err _ _ _); cbn.
  - split; [reflexivity|]. left. split; reflexivity.
  - split; [reflexivity|]. right. eexists. repeat split.
Qed.

(** A job as a rebuild leaves it. *)
Lemma reschedule_loop_contexts lib (s : t) (l : list Schedule.t) :
  let s' := foldl (reschedule_one lib) s l in
  gocron.runNow (Gocron s') = gocron.runNow (Gocron s)
  /\ exists new,
       Jobs s' = Jobs s ++ new
       /\ contexts s' = contexts s ++ replicate (length new) false
       /\ Job.Ctx <$> new = seq (length (contexts s)) (length new)
       /\ Forall (fun j => Job.Cancel j = Job.Ctx j
                           /\ gocron.Name (Job.job j) = Job.Id j
                           /\ Job.Running j = false /\ Job.Force j = false) new.
Proof.
  induction l as [|x l IH] using rev_ind; cbn zeta.
  - split; [reflexivity|]. exists []. cbn. rewrite !app_nil_r. repeat split. constructor.
  - rewrite foldl_snoc. set (s1 := foldl (reschedule_one lib) s l) in *.
    destruct IH as (Hr & new & Hj & Hc & Hseq & Hall).
    destruct (reschedule_one_contexts lib s1 x)
      as (Hr' & [(Hj' & Hc') | (j & Hj' & Hc' & Hctx & Hcan & Hn & Hrun & Hfo)]).
    + split; [congruence|]. exists new. rewrite Hj', Hc'. auto.
    + split; [congruence|]. exists (new ++ [j]).
      rewrite Hj', Hc', Hj, Hc, !length_app, fmap_app, Hseq. cbn [length].
      rewrite Nat.add_1_r, replicate_S_end, seq_S, <- !app_assoc. repeat split.
      * cbn. rewrite Hctx, Hc, length_app, length_replicate. reflexivity.
      * apply Forall_app. split; [exact Hall|]. constructor; [auto|constructor].
Qed.

(** X9.  A rebuild leaves a well-formed registry of idle jobs: no job
    is running or forced any more (whatever was running before is no
    longer reported), every job has a context of its own that is not
    cancelled, and the contexts there were before are not touched; nothing
    is sent on the channels. *)
Theorem rebuild_leaves_idle_jobs :
  forall (lib : gocron.Lib) (s : t),
    let s' := RescheduleBackups lib s in
    well_formed s'
    /\ Forall (fun j => Job.Running j = false /\ Job.Force j = false
                        /\ contexts s' !! Job.Ctx j = Some false) (Jobs s')
    /\ NoDup (Job.Ctx <$> Jobs s')
    /\ fst (GetRunningJobs s') = []
    /\ (forall k, (k < length (contexts s))%nat -> contexts s' !! k = contexts s !! k)
    /\ OutputCh s' = OutputCh s /\ ErrorCh s' = ErrorCh s.
Proof.
  intros lib s s'.
  destruct (RescheduleBackups_spec lib s) as (_ & _ & _ & _ & Ho & He).
  fold s' in Ho, He.
  assert (Hloop := reschedule_loop_contexts lib
                     (log Info "Rescheduling backups" [] (store_Jobs [] s))
                     (Settings.Schedules (settings s))).
  cbn zeta in Hloop. change (foldl _ _ _) with s' in Hloop.
  destruct Hloop as (_ & new & Hj & Hc & Hseq & Hall).
  change (Jobs s' = new) in Hj.
  change (contexts s' = contexts s ++ replicate (length new) false) in Hc.
  change (Job.Ctx <$> new = seq (length (contexts s)) (length new)) in Hseq.
  assert (Hctx : forall j, j ∈ new ->
            (length (contexts s) <= Job.Ctx j < length (contexts s) + length new)%nat).
  { intros j Hin. apply elem_of_seq. rewrite <- Hseq.
    apply list_elem_of_fmap. exists j. auto. }
  rewrite Hj, Hc. split; [|split; [|split; [|split; [|split]]]].
  - unfold well_formed. rewrite Hj, Hc. rewrite Forall_forall in Hall.
    apply Forall_forall. intros j Hin. destruct (Hall j Hin) as (H1 & H2 & _).
    split; [exact H2|]. split; [exact H1|].
    rewrite length_app, length_replicate. apply Hctx, Hin.
  - rewrite Forall_forall in Hall. apply Forall_forall. intros j Hin.
    destruct (Hall j Hin) as (_ & _ & H3 & H4). split; [exact H3|]. split; [exact H4|].
    destruct (Hctx j Hin) as [Hlo Hhi].
    rewrite lookup_app_r by exact Hlo. apply lookup_replicate_2. lia.
  - rewrite Hseq. apply NoDup_seq.
  - unfold GetRunningJobs, mu_Lock. cbn [fst Jobs set_jmu]. rewrite Hj.
    apply filter_none. intros j Hin Hrun. rewrite Forall_forall in Hall.
    destruct (Hall j Hin) as (_ & _ & H3 & _). congruence.
  - intros k Hk. apply lookup_app_l, Hk.
  - split; assumption.
Qed.

Lemma rebuild_leaves_idle_jobs_witness :
  contexts (RescheduleBackups (Samples.lib_rejecting "bad") Samples.stale_three) !! 0%nat
  = contexts Samples.stale_three !! 0%nat.
Proof.
  destruct (rebuild_leaves_idle_jobs (Samples.lib_rejecting "bad") Samples.stale_three)
    as (_ & _ & _ & _ & Hold & _).
  apply Hold. cbn. lia.
Defined.

(** X10.  A rebuild only ever adds to the jobs registered with gocron:
    those registered before are all still there, followed by the gocron
    jobs of the new registry; no immediate run is requested.  Two rebuilds
    in a row leave the gocron jobs of both. *)
Theorem rebuild_only_adds_gocron_jobs :
  forall (lib : gocron.Lib) (s : t),
    let s1 := RescheduleBackups lib s in
    let s2 := RescheduleBackups lib s1 in
    gocron.jobs (Gocron s1) = gocron.jobs (Gocron s) ++ (Job.job <$> Jobs s1)
    /\ gocron.runNow (Gocron s1) = gocron.runNow (Gocron s)
    /\ gocron.jobs (Gocron s2)
       = gocron.jobs (Gocron s) ++ (Job.job <$> Jobs s1) ++ (Job.job <$> Jobs s2).
Proof.
  intros lib s s1 s2.
  destruct (RescheduleBackups_spec lib s) as (_ & Hg1 & _).
  destruct (RescheduleBackups_spec lib s1) as (_ & Hg2 & _).
  fold s1 in Hg1. fold s2 in Hg2.
  split; [exact Hg1|]. split.
  - exact (proj1 (reschedule_loop_contexts lib
                    (log Info "Rescheduling backups" [] (store_Jobs [] s))
                    (Settings.Schedules (settings s)))).
  - rewrite Hg2, Hg1, <- app_assoc. reflexivity.
Qed.

End SchedulerMore.

(* --------------------------------------------------------------------- *)
(** ** The server file: both tables of a session                          *)
(* --------------------------------------------------------------------- *)

Section SessionMore.

Import Session.

Lemma run_cons (ev : Event) (evs : list Event) (st : Session.t) :
  fst (run (ev :: evs) st) = fst (run evs (fst (on_event ev st)))
  /\ snd (run (ev :: evs) st) = snd (on_event ev st) :: snd (run evs (fst (on_event ev st))).
Proof.
  cbn [run]. destruct (on_event ev st) as [st' b]. cbn [fst snd].
  destruct (run evs st') as [st2 bs]. split; reflexivity.
Qed.

Lemma on_event_errs_ok (ev : Event) (st : Session.t) :
  table_ok (errs st) -> table_ok (errs (fst (on_event ev st))).
Proof.
  intros [Hnd Hid]. destruct ev as [o|e]; cbn; [split; assumption|].
  split; [apply upsert_NoDup, Hnd|apply upsert_ids, Hid].
Qed.

Lemma run_errs_ok (evs : list Event) (st : Session.t) :
  table_ok (errs st) -> table_ok (errs (fst (run evs st))).
Proof.
  revert st. induction evs as [|ev evs IH]; intros st Hst; [exact Hst|].
  rewrite (proj1 (run_cons ev evs st)). apply IH, on_event_errs_ok, Hst.
Qed.

(** Events that are not success events for an id leave its entries in
    the success table; likewise for the error table. *)
Lemma run_keeps_outs (id : string) (evs : list Event) (st : Session.t) :
  (forall o, FromOutput o ∈ evs -> ChanMsg.Id o <> id) ->
  entries id (outs (fst (run evs st))) = entries id (outs st).
Proof.
  revert st. induction evs as [|ev evs IH]; intros st Hevs; [reflexivity|].
  rewrite (proj1 (run_cons ev evs st)).
  rewrite IH by (intros o Ho; apply Hevs; right; exact Ho).
  destruct ev as [o|e]; cbn; [|reflexivity].
  apply upsert_other. cbn. apply Hevs. left.
Qed.

Lemma run_keeps_errs (id : string) (evs : list Event) (st : Session.t) :
  (forall e, FromError e ∈ evs -> ChanMsg.Id e <> id) ->
  entries id (errs (fst (run evs st))) = entries id (errs st).
Proof.
  revert st. induction evs as [|ev evs IH]; intros st Hevs; [reflexivity|].
  rewrite (proj1 (run_cons ev evs st)).
  rewrite IH by (intros o Ho; apply Hevs; right; exact Ho).
  destruct ev as [o|e]; cbn; [reflexivity|].
  apply upsert_other. cbn. apply Hevs. left.
Qed.

(** X11.  In any interleaving of success and error events each of the
    two tables is last-write-wins for the events of its own kind: for an
    id that is not empty, the success table holds exactly the payload of
    the last success event for it, the error table exactly that of the
    last error event, whatever events of the other kind came in between. *)
Theorem tables_are_independent :
  forall evs : list Event,
    let st := fst (run evs init) in
    (forall evs1 o evs2,
       evs = evs1 ++ FromOutput o :: evs2 ->
       ChanMsg.Id o <> EmptyString ->
       (forall o', FromOutput o' ∈ evs2 -> ChanMsg.Id o' <> ChanMsg.Id o) ->
       entries (ChanMsg.Id o) (outs st)
       = [WsMsg.mk (ChanMsg.Id o) (ChanMsg.Msg o) EmptyString])
    /\ (forall evs1 e evs2,
          evs = evs1 ++ FromError e :: evs2 ->
          ChanMsg.Id e <> EmptyString ->
          (forall e', FromError e' ∈ evs2 -> ChanMsg.Id e' <> ChanMsg.Id e) ->
          entries (ChanMsg.Id e) (errs st)
          = [WsMsg.mk (ChanMsg.Id e) EmptyString (ChanMsg.Msg e)]).
Proof.
  intros evs st. assert (Hinit : table_ok (@nil WsMsg.t)) by (split; constructor).
  split.
  - intros evs1 o evs2 -> Ho Hlater. subst st.
    rewrite (proj1 (run_app evs1 (FromOutput o :: evs2) init)).
    rewrite (proj1 (run_cons (FromOutput o) evs2 _)).
    rewrite run_keeps_outs by exact Hlater. cbn [on_event fst outs].
    apply (upsert_same (WsMsg.mk (ChanMsg.Id o) (ChanMsg.Msg o) EmptyString)); [exact Ho|].
    apply (run_table_ok evs1 init Hinit).
  - intros evs1 e evs2 -> He Hlater. subst st.
    rewrite (proj1 (run_app evs1 (FromError e :: evs2) init)).
    rewrite (proj1 (run_cons (FromError e) evs2 _)).
    rewrite run_keeps_errs by exact Hlater. cbn [on_event fst errs].
    apply (upsert_same (WsMsg.mk (ChanMsg.Id e) EmptyString (ChanMsg.Msg e))); [exact He|].
    apply (run_errs_ok evs1 init Hinit).
Qed.

Lemma tables_are_independent_witness :
  entries "s2"
    (errs (fst (run [FromError (Samples.ev "s2" "disk full");
                     FromOutput (Samples.ev "s2" "X")] init)))
  = [WsMsg.mk "s2" EmptyString "disk full"].
Proof.
  destruct (tables_are_independent [FromError (Samples.ev "s2" "disk full");
                                    FromOutput (Samples.ev "s2" "X")]) as (_ & Herr).
  apply (Herr [] (Samples.ev "s2" "disk full") [FromOutput (Samples.ev "s2" "X")]).
  - reflexivity.
  - discriminate.
  - intros e' He'. apply list_elem_of_singleton in He'. discriminate He'.
Defined.

Lemma upsert_Forall (P : WsMsg.t -> Prop) (m : WsMsg.t) (l : list WsMsg.t) :
  P m -> Forall P l -> Forall P (upsert m l).
Proof.
  intros Hm Hl.
  destruct (decide (WsMsg.Id m = EmptyString)) as [He|Hne].
  { rewrite upsert_no_id by exact He. exact Hl. }
  destruct (decide (WsMsg.Id m ∈ (WsMsg.Id <$> l))) as [Hin|Hout].
  - destruct (upsert_known m l Hne Hin) as (i & x & Hi & Hx & ->).
    apply Forall_insert; assumption.
  - rewrite upsert_fresh by assumption. apply Forall_app. split; [exact Hl|].
    constructor; [exact Hm|constructor].
Qed.

Lemma on_event_one_sided (ev : Event) (st : Session.t) :
  one_sided st -> one_sided (fst (on_event ev st)).
Proof.
  intros [Ho He]. destruct ev as [o|e]; cbn; split; try assumption;
    apply upsert_Forall; auto.
Qed.

Lemma keep_Err_spec (m : WsMsg.t) :
  keep_Err m = true -> WsMsg.Err m <> EmptyString /\ WsMsg.Err m <> "{}".
Proof.
  unfold keep_Err. intros H. apply andb_true_iff in H as [H1 H2].
  apply negb_true_iff in H1, H2. split.
  - intros Heq. rewrite Heq in H1. discriminate H1.
  - intros Heq. rewrite Heq in H2. discriminate H2.
Qed.

Lemma Forall_funk_Filter (P : WsMsg.t -> Prop) (p : WsMsg.t -> bool) (l : list WsMsg.t) :
  Forall P l -> Forall (fun m => P m /\ p m = true) (funk_Filter p l).
Proof.
  intros Hl. apply Forall_forall. intros m Hm. unfold funk_Filter in Hm.
  apply list_elem_of_In, List.filter_In in Hm as [Hin Hp].
  rewrite Forall_forall in Hl. split; [apply Hl, list_elem_of_In, Hin|exact Hp].
Qed.

Lemma run_one_sided_broadcasts (evs : list Event) (st : Session.t) :
  one_sided st ->
  length (snd (run evs st)) = length evs
  /\ forall k ev b,
       evs !! k = Some ev -> snd (run evs st) !! k = Some b ->
       match ev with
       | FromOutput _ =>
           Forall (fun m => WsMsg.Err m = EmptyString
                            /\ WsMsg.Out m <> EmptyString /\ WsMsg.Out m <> "{}") b
       | FromError _ =>
           Forall (fun m => WsMsg.Out m = EmptyString
                            /\ WsMsg.Err m <> EmptyString /\ WsMsg.Err m <> "{}") b
       end.
Proof.
  revert st. induction evs as [|ev0 evs IH]; intros st Hst.
  - split; [reflexivity|]. intros k ev b Hk. discriminate Hk.
  - rewrite (proj2 (run_cons ev0 evs st)).
    destruct (IH _ (on_event_one_sided ev0 st Hst)) as [Hlen Hbs].
    split; [cbn; rewrite Hlen; reflexivity|].
    intros [|k] ev b Hk Hb; cbn in Hk, Hb; [|exact (Hbs k ev b Hk Hb)].
    injection Hk as <-. injection Hb as <-.
    pose proof (on_event_one_sided ev0 st Hst) as [Ho He].
    destruct ev0 as [o|e]; cbn in *.
    + eapply Forall_impl;
        [exact (Forall_funk_Filter (fun m => WsMsg.Err m = EmptyString) keep_Out _ Ho)|].
      cbn. intros m [H1 H2]. split; [exact H1|apply keep_Out_spec, H2].
    + eapply Forall_impl;
        [exact (Forall_funk_Filter (fun m => WsMsg.Out m = EmptyString) keep_Err _ He)|].
      cbn. intros m [H1 H2]. split; [exact H1|apply keep_Err_spec, H2].
Qed.

(** X12.  A session serializes one slice per event, and the slice holds
    entries of one table only: after a success event every entry has a
    kept success payload and an empty error text, after an error event a
    kept error text and an empty success payload.  No entry ever carries
    both. *)
Theorem broadcast_carries_one_table :
  forall evs : list Event,
    length (snd (run evs init)) = length evs
    /\ forall k ev b,
         evs !! k = Some ev -> snd (run evs init) !! k = Some b ->
         match ev with
         | FromOutput _ =>
             Forall (fun m => WsMsg.Err m = EmptyString
                              /\ WsMsg.Out m <> EmptyString /\ WsMsg.Out m <> "{}") b
         | FromError _ =>
             Forall (fun m => WsMsg.Out m = EmptyString
                              /\ WsMsg.Err m <> EmptyString /\ WsMsg.Err m <> "{}") b
         end.
Proof.
  intros evs. apply run_one_sided_broadcasts. split; constructor.
Qed.

Lemma broadcast_carries_one_table_witness :
  Forall (fun m => WsMsg.Out m = EmptyString
                   /\ WsMsg.Err m <> EmptyString /\ WsMsg.Err m <> "{}")
    [WsMsg.mk "s2" EmptyString "disk full"].
Proof.
  destruct (broadcast_carries_one_table
              [FromOutput (Samples.ev "s2" "X"); FromError (Samples.ev "s2" "disk full")])
    as [_ H].
  exact (H 1%nat (FromError (Samples.ev "s2" "disk full"))
           [WsMsg.mk "s2" EmptyString "disk full"] eq_refl eq_refl).
Defined.

Lemma upsert_elem (id : string) (m : WsMsg.t) (l : list WsMsg.t) :
  id ∈ (WsMsg.Id <$> upsert m l)
  <-> id ∈ (WsMsg.Id <$> l) \/ (id = WsMsg.Id m /\ id <> EmptyString).
Proof.
  destruct (decide (WsMsg.Id m = EmptyString)) as [He|Hne].
  { rewrite upsert_no_id by exact He. split; [tauto|].
    intros [H|[-> H]]; [exact H|contradiction]. }
  destruct (decide (WsMsg.Id m ∈ (WsMsg.Id <$> l))) as [Hin|Hout].
  - destruct (upsert_known m l Hne Hin) as (i & x & Hi & Hx & ->).
    rewrite list_fmap_insert, list_insert_id
      by (rewrite list_lookup_fmap, Hi; cbn; congruence).
    split; [tauto|]. intros [H|[-> _]]; assumption.
  - rewrite upsert_fresh by assumption. rewrite fmap_app, elem_of_app. cbn.
    rewrite list_elem_of_singleton. split.
    + intros [H | ->]; [left; exact H | right; auto].
    + intros [H|[-> _]]; auto.
Qed.

Lemma run_ids (id : string) (evs : list Event) (st : Session.t) :
  (id ∈ (WsMsg.Id <$> outs (fst (run evs st)))
   <-> id ∈ (WsMsg.Id <$> outs st)
       \/ (id <> EmptyString /\ exists o, FromOutput o ∈ evs /\ ChanMsg.Id o = id))
  /\ (id ∈ (WsMsg.Id <$> errs (fst (run evs st)))
      <-> id ∈ (WsMsg.Id <$> errs st)
          \/ (id <> EmptyString /\ exists e, FromError e ∈ evs /\ ChanMsg.Id e = id)).
Proof.
  revert st. induction evs as [|ev evs IH]; intros st.
  - cbn. split; (split; [tauto|]); (intros [H|(_ & x & Hx & _)]; [exact H|inversion Hx]).
  - rewrite (proj1 (run_cons ev evs st)). destruct (IH (fst (on_event ev st))) as [IHo IHe].
    rewrite IHo, IHe. clear IHo IHe IH.
    destruct ev as [o|e]; cbn [on_event fst outs errs].
    + rewrite upsert_elem. cbn [WsMsg.Id]. split.
      * split.
        -- intros [[H|[-> H]]|(Hne & x & Hx & Hid)]; [tauto| |].
           ++ right. split; [exact H|]. exists o. split; [left|reflexivity].
           ++ right. split; [exact Hne|]. exists x. split; [right; exact Hx|exact Hid].
        -- intros [H|(Hne & x & Hx & Hid)]; [tauto|].
           apply elem_of_cons in Hx as [Hx|Hx].
           ++ injection Hx as ->. left. right. auto.
           ++ right. split; [exact Hne|]. exists x. auto.
      * split.
        -- intros [H|(Hne & x & Hx & Hid)]; [tauto|].
           right. split; [exact Hne|]. exists x. split; [right; exact Hx|exact Hid].
        -- intros [H|(Hne & x & Hx & Hid)]; [tauto|].
           apply elem_of_cons in Hx as [Hx|Hx]; [discriminate Hx|].
           right. split; [exact Hne|]. exists x. auto.
    + rewrite upsert_elem. cbn [WsMsg.Id]. split.
      * split.
        -- intros [H|(Hne & x & Hx & Hid)]; [tauto|].
           right. split; [exact Hne|]. exists x. split; [right; exact Hx|exact Hid].
        -- intros [H|(Hne & x & Hx & Hid)]; [tauto|].
           apply elem_of_cons in Hx as [Hx|Hx]; [discriminate Hx|].
           right. split; [exact Hne|]. exists x. auto.
      * split.
        -- intros [[H|[-> H]]|(Hne & x & Hx & Hid)]; [tauto| |].
           ++ right. split; [exact H|]. exists e. split; [left|reflexivity].
           ++ right. split; [exact Hne|]. exists x. split; [right; exact Hx|exact Hid].
        -- intros [H|(Hne & x & Hx & Hid)]; [tauto|].
           apply elem_of_cons in Hx as [Hx|Hx].
           ++ injection Hx as ->. left. right. auto.
           ++ right. split; [exact Hne|]. exists x. auto.
Qed.

(** X13.  The ids of the success table of a session are the ids, other
    than the empty one, of the success events it received, each once; the
    ids of the error table are those of its error events. *)
Theorem table_ids_are_the_ids_seen :
  forall (evs : list Event) (id : string),
    let st := fst (run evs init) in
    NoDup (WsMsg.Id <$> outs st) /\ NoDup (WsMsg.Id <$> errs st)
    /\ (id ∈ (WsMsg.Id <$> outs st)
        <-> id <> EmptyString /\ exists o, FromOutput o ∈ evs /\ ChanMsg.Id o = id)
    /\ (id ∈ (WsMsg.Id <$> errs st)
        <-> id <> EmptyString /\ exists e, FromError e ∈ evs /\ ChanMsg.Id e = id).
Proof.
  intros evs id st. assert (Hinit : table_ok (@nil WsMsg.t)) by (split; constructor).
  split; [apply (run_table_ok evs init Hinit)|].
  split; [apply (run_errs_ok evs init Hinit)|].
  destruct (run_ids id evs init) as [Ho He]. fold st in Ho, He.
  rewrite Ho, He. cbn. split; split; try tauto; intros [H|H]; try exact H; inversion H.
Qed.

Lemma table_ids_are_the_ids_seen_witness :
  "a" ∈ (WsMsg.Id <$> outs (fst (run [FromOutput (Samples.ev "a" "X")] init))).
Proof.
  destruct (table_ids_are_the_ids_seen [FromOutput (Samples.ev "a" "X")] "a")
    as (_ & _ & Hout & _).
  apply Hout. split; [discriminate|].
  exists (Samples.ev "a" "X"). split; [left|reflexivity].
Defined.

Lemma entries_funk_Filter (id : string) (p : WsMsg.t -> bool) (l : list WsMsg.t) :
  entries id (funk_Filter p l) = List.filter p (entries id l).
Proof.
  unfold entries, funk_Filter. induction l as [|x l IH]; [reflexivity|].
  cbn. destruct (p x) eqn:Hp, (String.eqb (WsMsg.Id x) id) eqn:Hid; cbn;
    rewrite ?Hp, ?Hid, IH; reflexivity.
Qed.

(** X14.  The slice serialized right after a success event for an id
    that is not empty holds the payload of the event as its one entry for
    the id, unless that payload is empty or [{}]: then it holds no entry
    for the id, whatever payload the id had before. *)
Theorem broadcast_after_success_event :
  forall (evs : list Event) (o : ChanMsg.t),
    ChanMsg.Id o <> EmptyString ->
    let m := WsMsg.mk (ChanMsg.Id o) (ChanMsg.Msg o) EmptyString in
    exists b,
      snd (run (evs ++ [FromOutput o]) init) = snd (run evs init) ++ [b]
      /\ (ChanMsg.Msg o = EmptyString \/ ChanMsg.Msg o = "{}" ->
          entries (ChanMsg.Id o) b = [])
      /\ (ChanMsg.Msg o <> EmptyString -> ChanMsg.Msg o <> "{}" ->
          entries (ChanMsg.Id o) b = [m]).
Proof.
  intros evs o Ho m.
  exists (funk_Filter keep_Out (upsert m (outs (fst (run evs init))))).
  assert (Hinit : table_ok (@nil WsMsg.t)) by (split; constructor).
  assert (Hent : entries (ChanMsg.Id o) (upsert m (outs (fst (run evs init)))) = [m]).
  { apply (upsert_same m); [exact Ho|]. apply (run_table_ok evs init Hinit). }
  split; [|split].
  - rewrite (proj2 (run_app evs [FromOutput o] init)). reflexivity.
  - intros Hmsg. rewrite entries_funk_Filter, Hent. cbn. unfold keep_Out. cbn.
    destruct Hmsg as [-> | ->]; reflexivity.
  - intros H1 H2. rewrite entries_funk_Filter, Hent. cbn. unfold keep_Out. cbn.
    destruct (String.eqb_spec (ChanMsg.Msg o) EmptyString); [contradiction|].
    destruct (String.eqb_spec (ChanMsg.Msg o) "{}"); [contradiction|]. reflexivity.
Qed.

Lemma broadcast_after_success_event_witness :
  exists b,
    snd (run ([FromOutput (Samples.ev "a" "X")] ++ [FromOutput (Samples.ev "a" "{}")]) init)
    = snd (run [FromOutput (Samples.ev "a" "X")] init) ++ [b]
    /\ entries "a" b = [].
Proof.
  destruct (broadcast_after_success_event [FromOutput (Samples.ev "a" "X")]
              (Samples.ev "a" "{}")) as (b & Hb & Hnone & _).
  - discriminate.
  - exists b. split; [exact Hb|]. apply Hnone. right. reflexivity.
Defined.

End SessionMore.

(* --------------------------------------------------------------------- *)
(** ** The server file: broadcasts, the sweeper, pings, a viewer's life   *)
(* --------------------------------------------------------------------- *)

Section HubMore.

Import Hub.

Lemma hub_run_delivers (pre rest : list Conn) (message : string) (w : World) :
  hub w = HRange message (pre ++ rest) ->
  Forall (fun c => c ∉ closed w ∪ broken w) pre ->
  hub_run (length pre) w
  = with_hub (HRange message rest) (with_wire (wire w ++ frames message pre) w).
Proof.
  revert w. induction pre as [|c pre IH]; intros w Hhub Hpre.
  - cbn. rewrite app_nil_r. destruct w; cbn in *. rewrite Hhub. reflexivity.
  - apply Forall_cons in Hpre as [Hc Hpre].
    cbn [length hub_run]. unfold hub_internal. rewrite Hhub. cbn [app].
    unfold write_fails. rewrite bool_decide_eq_false_2 by exact Hc.
    rewrite IH; [|reflexivity|exact Hpre].
    cbn. rewrite <- app_assoc. reflexivity.
Qed.

Lemma received_app (c : Conn) (w : World) (l : list (Conn * Frame)) :
  received c (with_wire (wire w ++ l) w)
  = received c w ++ received c (with_wire l w).
Proof. unfold received. cbn. apply omap_app. Qed.

Lemma received_frames (c : Conn) (w : World) (message : string) (l : list Conn) :
  NoDup l ->
  received c (with_wire (frames message l) w)
  = if decide (c ∈ l) then [message] else [].
Proof.
  unfold received, frames. cbn [wire with_wire].
  induction 1 as [|x l Hx Hnd IH]; [reflexivity|].
  rewrite fmap_cons. cbn [omap list_omap]. rewrite IH.
  destruct (decide (x = c)) as [->|Hne].
  - rewrite decide_False by exact Hx. rewrite decide_True by left. reflexivity.
  - destruct (decide (c ∈ l)) as [Hin|Hout].
    + rewrite decide_True by (right; exact Hin). reflexivity.
    + rewrite decide_False; [reflexivity|].
      intros Hin. apply elem_of_cons in Hin as [->|Hin]; contradiction.
Qed.

(** X15.  When no write fails, the hub left alone with a payload writes
    it to every client of its range, in the order of the range, and is
    back in its select; each client of the range has received the payload
    once more, the others nothing. *)
Theorem broadcast_reaches_every_client :
  forall (message : string) (todo : list Conn) (w : World),
    hub w = HRange message todo ->
    Forall (fun c => c ∉ closed w ∪ broken w) todo ->
    let w' := hub_run (S (length todo)) w in
    w' = with_hub HSelect (with_wire (wire w ++ frames message todo) w)
    /\ (NoDup todo ->
        forall c, received c w'
                  = received c w ++ (if decide (c ∈ todo) then [message] else [])).
Proof.
  intros message todo w Hhub Hall w'.
  assert (Hw' : w' = with_hub HSelect (with_wire (wire w ++ frames message todo) w)).
  { subst w'. replace (S (length todo)) with (length todo + 1)%nat by lia.
    assert (Hrun : forall n m x, hub_run (n + m) x = hub_run m (hub_run n x)
                                 \/ hub_internal (hub_run n x) = None).
    { induction n as [|n IHn]; intros m x; [left; reflexivity|].
      cbn [Nat.add hub_run]. destruct (hub_internal x) as [x'|] eqn:Hx; [apply IHn|].
      right. exact Hx. }
    pose proof (hub_run_delivers todo [] message w) as Hd.
    rewrite app_nil_r in Hd. specialize (Hd Hhub Hall).
    destruct (Hrun (length todo) 1%nat w) as [-> | Hnone].
    - rewrite Hd. reflexivity.
    - rewrite Hd in Hnone. discriminate Hnone. }
  split; [exact Hw'|]. intros Hnd c. rewrite Hw'.
  change (received c (with_hub HSelect ?x)) with (received c x).
  rewrite received_app, received_frames by exact Hnd. reflexivity.
Qed.

Lemma no_failure_in_all_healthy :
  Forall (fun c => c ∉ closed Samples.all_healthy ∪ broken Samples.all_healthy) [1; 2; 3]%nat.
Proof.
  apply Forall_forall. intros c _ Hc.
  apply elem_of_union in Hc as [Hc|Hc]; exact (not_elem_of_empty _ Hc).
Defined.

Lemma broadcast_reaches_every_client_witness :
  hub_run 4 Samples.all_healthy
  = with_hub HSelect (with_wire (frames "[]" [1; 2; 3]%nat) Samples.all_healthy).
Proof.
  exact (proj1 (broadcast_reaches_every_client "[]" [1; 2; 3]%nat Samples.all_healthy
                  eq_refl no_failure_in_all_healthy)).
Defined.

Lemma hub_run_blocked (n : nat) (w : World) (message : string) (c : Conn)
    (todo : list Conn) :
  hub w = HSendUnregister message c todo -> hub_run n w = w.
Proof.
  intros Hhub. destruct n as [|n]; [reflexivity|].
  cbn [hub_run]. unfold hub_internal. rewrite Hhub. reflexivity.
Qed.

(** X16.  A broadcast stops at the first client whose write fails: the
    clients before it in the range have received the payload, the hub
    stands at its send on [unregister], and from then on, whatever the
    other goroutines do, it stays there, nothing more is written, and no
    send on [register], [unregister] or [broadcast] is ever taken. *)
Theorem broadcast_stops_at_first_failure :
  forall Marshal (message : string) (pre post : list Conn) (c : Conn) (w : World),
    hub w = HRange message (pre ++ c :: post) ->
    Forall (fun c' => c' ∉ closed w ∪ broken w) pre ->
    c ∈ closed w ∪ broken w ->
    let w' := hub_run (S (length pre)) w in
    w' = with_hub (HSendUnregister message c post)
           (with_wire (wire w ++ frames message pre) w)
    /\ (forall n, hub_run n w' = w')
    /\ forall w'', steps Marshal w' w'' ->
         hub w'' = HSendUnregister message c post
         /\ wire w'' = wire w ++ frames message pre
         /\ forall l w3, step Marshal w'' l w3 ->
              match l with LSync _ _ _ => False | _ => True end.
Proof.
  intros Marshal message pre post c w Hhub Hpre Hc w'.
  assert (Hw' : w' = with_hub (HSendUnregister message c post)
                       (with_wire (wire w ++ frames message pre) w)).
  { subst w'. pose proof (hub_run_delivers pre (c :: post) message w Hhub Hpre) as Hd.
    assert (Hsplit : forall n x, hub_internal (hub_run n x) = None
                                 \/ hub_run (S n) x = default (hub_run n x)
                                                        (hub_internal (hub_run n x))).
    { induction n as [|n IHn]; intros x.
      - cbn. destruct (hub_internal x); [right|left]; reflexivity.
      - cbn [hub_run]. destruct (hub_internal x) as [x'|] eqn:Hx.
        + destruct (IHn x') as [H|H]; [left; exact H|right].
          rewrite <- H. reflexivity.
        + left. exact Hx. }
    destruct (Hsplit (length pre) w) as [Hnone|Hstep]; rewrite Hd in *.
    - unfold hub_internal in Hnone. cbn in Hnone.
      destruct (write_fails c _); discriminate Hnone.
    - rewrite Hstep. unfold hub_internal. cbn [hub with_hub].
      unfold write_fails. cbn [closed broken with_hub with_wire].
      rewrite bool_decide_eq_true_2 by exact Hc. reflexivity. }
  split; [exact Hw'|]. split.
  - intros n. apply (hub_run_blocked n w' message c post). rewrite Hw'. reflexivity.
  - intros w'' Hsteps.
    destruct (blocked_hub_forever Marshal w' w'' message c post) as (Hh & Hwire & _);
      [rewrite Hw'; reflexivity|exact Hsteps|].
    rewrite Hh, Hwire, Hw'. split; [reflexivity|]. split; [reflexivity|].
    intros l w3 Hstep. destruct Hstep; try exact I.
    match goal with H : receiving _ _ _ |- _ => inversion H as [ch Hsel] end.
    rewrite Hh, Hw' in Hsel. discriminate Hsel.
Qed.

Lemma broadcast_stops_at_first_failure_witness :
  hub_run 1 Samples.ranging
  = with_hub (HSendUnregister "[]" 1%nat [2; 3]%nat)
      (with_wire (wire Samples.ranging ++ frames "[]" []) Samples.ranging).
Proof.
  refine (proj1 (broadcast_stops_at_first_failure Samples.Marshal "[]" [] [2; 3]%nat 1%nat
                   Samples.ranging eq_refl (Forall_nil_2 _) _)).
  change (1%nat ∈ (∅ : gset Conn) ∪ {[1%nat]}).
  apply elem_of_union_r, elem_of_singleton_2. reflexivity.
Defined.

(** X17.  [handlePing] finds the client to refresh by remote address,
    not by connection: a ping on a connection whose address no client of
    the set has changes nothing (it never adds a client); when the client
    of the connection is the only one with its address, it is the one
    refreshed; and in any case only a client with the address of the
    connection can change, to the current time. *)
Theorem ping_refreshes_by_address :
  forall (c : Conn) (order : list (Conn * client)) (w : World),
    order ≡ₚ map_to_list (clients w) ->
    ((forall c', c' ∈ dom (clients w) -> RemoteAddr w c' <> RemoteAddr w c) ->
     refresh c order w = w)
    /\ (c ∈ dom (clients w) ->
        (forall c', c' ∈ dom (clients w) -> RemoteAddr w c' = RemoteAddr w c -> c' = c) ->
        refresh c order w = with_clients (<[c := mkClient (now w)]> (clients w)) w)
    /\ (forall c', clients (refresh c order w) !! c' <> clients w !! c' ->
          RemoteAddr w c' = RemoteAddr w c
          /\ clients (refresh c order w) !! c' = Some (mkClient (now w))).
Proof.
  intros c order w Hperm.
  assert (Hin : forall kv, kv ∈ order -> clients w !! fst kv = Some (snd kv)).
  { intros [k v] Hkv. rewrite Hperm in Hkv. apply elem_of_map_to_list in Hkv. exact Hkv. }
  unfold refresh.
  destruct (list_find _ order) as [[i [connection cl]]|] eqn:Hf.
  - apply list_find_Some in Hf as (Hi & Haddr & _). cbn in Haddr.
    pose proof (Hin _ (list_elem_of_lookup_2 _ _ _ Hi)) as Hconn. cbn in Hconn.
    assert (Hdom : connection ∈ dom (clients w)) by (apply elem_of_dom; eauto).
    split; [|split].
    + intros Hno. exfalso. exact (Hno connection Hdom Haddr).
    + intros _ Huniq. rewrite (Huniq connection Hdom Haddr). reflexivity.
    + intros c' Hneq. cbn in Hneq. destruct (decide (connection = c')) as [<-|Hne].
      * split; [exact Haddr|]. cbn. apply lookup_insert_eq.
      * exfalso. apply Hneq. apply lookup_insert_ne. exact Hne.
  - split; [|split].
    + reflexivity.
    + intros Hc _. exfalso. apply elem_of_dom in Hc as [cl Hcl].
      apply list_find_None in Hf. rewrite Forall_forall in Hf.
      apply (Hf (c, cl)); [|reflexivity].
      rewrite Hperm. apply elem_of_map_to_list. exact Hcl.
    + intros c' Hneq. exfalso. apply Hneq. reflexivity.
Qed.

Lemma ping_refreshes_by_address_witness :
  refresh 1%nat [(1%nat, mkClient 0)] Samples.one_viewer
  = with_clients (<[1%nat := mkClient (now Samples.one_viewer)]>
                    (clients Samples.one_viewer)) Samples.one_viewer.
Proof.
  destruct (ping_refreshes_by_address 1%nat [(1%nat, mkClient 0)] Samples.one_viewer
              one_viewer_order) as (_ & H & _).
  apply H.
  - apply elem_of_dom. exists (mkClient 0). reflexivity.
  - intros c' Hc' _. change (c' ∈ dom (<[1%nat := mkClient 0]> (∅ : gmap Conn client))) in Hc'.
    rewrite dom_insert_L, dom_empty_L in Hc'.
    apply elem_of_union in Hc' as [Hc'|Hc'].
    + apply elem_of_singleton in Hc'. exact Hc'.
    + exfalso. exact (not_elem_of_empty _ Hc').
Defined.



Lemma sent_keeps_clients (a : Actor) (w : World) : clients (sent a w) = clients w.
Proof.
  destruct a as [| |c|c]; cbn [sent].
  - destruct (hub w); reflexivity.
  - destruct (sweeper w); reflexivity.
  - destruct (sessions w !! c) as [[]|]; reflexivity.
  - reflexivity.
Qed.

Lemma hub_next_not_HClose (m : Msg) (order : list Conn) message c todo :
  hub_next m order <> HClose message c todo.
Proof. destruct m; discriminate. Qed.

(** One step keeps the handlers out of their deferred function and the
    hub away from its [connection.Close()]. *)
Lemma loop_step Marshal (w : World) (l : Label) (w' : World) :
  step Marshal w l w' ->
  (forall c, sessions w !! c <> Some SUnregister) ->
  (forall message c todo, hub w <> HClose message c todo) ->
  (forall c, sessions w' !! c <> Some SUnregister)
  /\ (forall message c todo, hub w' <> HClose message c todo)
  /\ closed w' = closed w
  /\ (forall c p, sessions w !! c = Some p -> in_loop p = true ->
        exists p', sessions w' !! c = Some p' /\ in_loop p' = true).
Proof.
  intros Hstep Hun Hcl.
  destruct Hstep as [w a m order Hoff Hrecv Hord | w w' Hint | w order w' Hord Hint
                    | w c order i connection cl Hc Hord Hfind
                    | w c connection cl l1 l2 Href
                    | w c connection stamped l1 l2 Href
                    | w c Hnone | w c ev p p' Hp Hev | w d Hd].
  - inversion Hrecv as [ch Hh]; subst.
    destruct a as [| |c|c]; cbn [offers] in Hoff.
    + rewrite Hh in Hoff. discriminate Hoff.
    + destruct (sweeper w) as [|todo|connection todo] eqn:Hsw; try discriminate Hoff.
      cbn [sent]. rewrite Hsw.
      split; [exact Hun|]. split; [intros; apply hub_next_not_HClose|].
      split; [reflexivity|]. intros c p Hp Hin. exists p. split; assumption.
    + destruct (sessions w !! c) as [[|st|j st| |]|] eqn:Hs; try discriminate Hoff.
      * cbn [sent]. rewrite Hs.
        cbn [sessions hub closed with_hub with_clients with_pingers with_sessions].
        split.
        { intros c'. destruct (decide (c' = c)) as [->|Hne].
          - rewrite lookup_insert_eq. discriminate.
          - rewrite lookup_insert_ne by congruence. apply Hun. }
        split; [intros; apply hub_next_not_HClose|]. split; [reflexivity|].
        intros c' p Hp Hin. destruct (decide (c' = c)) as [->|Hne].
        { exists (SSelect Session.init). rewrite lookup_insert_eq. split; reflexivity. }
        exists p. rewrite lookup_insert_ne by congruence. split; assumption.
      * cbn [sent]. rewrite Hs.
        cbn [sessions hub closed with_hub with_clients with_pingers with_sessions].
        split.
        { intros c'. destruct (decide (c' = c)) as [->|Hne].
          - rewrite lookup_insert_eq. discriminate.
          - rewrite lookup_insert_ne by congruence. apply Hun. }
        split; [intros; apply hub_next_not_HClose|]. split; [reflexivity|].
        intros c' p Hp Hin. destruct (decide (c' = c)) as [->|Hne].
        { exists (SSelect st). rewrite lookup_insert_eq. split; reflexivity. }
        exists p. rewrite lookup_insert_ne by congruence. split; assumption.
      * exfalso. exact (Hun c Hs).
    + discriminate Hoff.
  - unfold hub_internal in Hint.
    destruct (hub w) as [|message [|connection todo]|message connection todo
                        |message connection todo] eqn:Hh; try discriminate Hint.
    + injection Hint as <-. split; [exact Hun|]. split; [discriminate|].
      split; [reflexivity|]. intros c p Hp Hin. exists p. split; assumption.
    + destruct (write_fails connection w); injection Hint as <-.
      * split; [exact Hun|]. split; [discriminate|].
        split; [reflexivity|]. intros c p Hp Hin. exists p. split; assumption.
      * split; [exact Hun|]. split; [discriminate|].
        split; [reflexivity|]. intros c p Hp Hin. exists p. split; assumption.
    + exfalso. exact (Hcl _ _ _ eq_refl).
  - unfold sweeper_internal in Hint.
    destruct (sweeper w) as [|[|[connection cl] todo]|connection todo];
      try discriminate Hint.
    + injection Hint as <-. split; [exact Hun|]. split; [exact Hcl|].
      split; [reflexivity|]. intros c p Hp Hin. exists p. split; assumption.
    + injection Hint as <-. split; [exact Hun|]. split; [exact Hcl|].
      split; [reflexivity|]. intros c p Hp Hin. exists p. split; assumption.
    + destruct (now w - LastSeen cl >? 2 * second)%Z; injection Hint as <-.
      * split; [exact Hun|]. split; [exact Hcl|].
        split; [reflexivity|]. intros c p Hp Hin. exists p. split; assumption.
      * split; [exact Hun|]. split; [exact Hcl|].
        split; [reflexivity|]. intros c p Hp Hin. exists p. split; assumption.
  - split; [exact Hun|]. split; [exact Hcl|].
    split; [reflexivity|]. intros c' p Hp Hin. exists p. split; assumption.
  - split; [exact Hun|]. split; [exact Hcl|].
    split; [reflexivity|]. intros c' p Hp Hin. exists p. split; assumption.
  - split; [exact Hun|]. split; [exact Hcl|].
    split; [reflexivity|]. intros c' p Hp Hin. exists p. split; assumption.
  - cbn [sessions hub closed with_sessions].
    split.
    { intros c'. destruct (decide (c' = c)) as [->|Hne].
      - rewrite lookup_insert_eq. discriminate.
      - rewrite lookup_insert_ne by congruence. apply Hun. }
    split; [exact Hcl|]. split; [reflexivity|].
    intros c' p Hp Hin. exists p. split; [|exact Hin].
    rewrite lookup_insert_ne; [exact Hp|]. intros ->. rewrite Hnone in Hp. discriminate Hp.
  - assert (Hp' : in_loop p' = true).
    { unfold session_event in Hev. destruct p as [|st|j st| |]; try discriminate Hev.
      destruct (Session.on_event ev st) as [st' out].
      destruct (Marshal out); injection Hev as <-; reflexivity. }
    cbn [sessions hub closed with_sessions].
    split.
    { intros c'. destruct (decide (c' = c)) as [->|Hne].
      - rewrite lookup_insert_eq. intros Heq. injection Heq as ->. discriminate Hp'.
      - rewrite lookup_insert_ne by congruence. apply Hun. }
    split; [exact Hcl|]. split; [reflexivity|].
    intros c' q Hq Hin. destruct (decide (c' = c)) as [->|Hne].
    { exists p'. rewrite lookup_insert_eq. split; [reflexivity|exact Hp']. }
    exists q. rewrite lookup_insert_ne by congruence. split; assumption.
  - split; [exact Hun|]. split; [exact Hcl|].
    split; [reflexivity|]. intros c' p Hp Hin. exists p. split; assumption.
Qed.

Lemma loop_steps Marshal (w w' : World) :
  steps Marshal w w' ->
  (forall c, sessions w !! c <> Some SUnregister) ->
  (forall message c todo, hub w <> HClose message c todo) ->
  (forall c, sessions w' !! c <> Some SUnregister)
  /\ (forall message c todo, hub w' <> HClose message c todo)
  /\ closed w' = closed w
  /\ (forall c p, sessions w !! c = Some p -> in_loop p = true ->
        exists p', sessions w' !! c = Some p' /\ in_loop p' = true).
Proof.
  induction 1 as [w|w l w' w'' Hstep Hsteps IH]; intros Hun Hcl.
  - split; [exact Hun|]. split; [exact Hcl|]. split; [reflexivity|].
    intros c p Hp Hin. exists p. split; assumption.
  - destruct (loop_step Marshal w l w' Hstep Hun Hcl) as (Hun' & Hcl' & Hclosed & Hloop).
    destruct (IH Hun' Hcl') as (Hun'' & Hcl'' & Hclosed' & Hloop').
    split; [exact Hun''|]. split; [exact Hcl''|].
    split; [rewrite Hclosed'; exact Hclosed|].
    intros c p Hp Hin. destruct (Hloop c p Hp Hin) as (p' & Hp' & Hin').
    exact (Hloop' c p' Hp' Hin').
Qed.

(** A step that takes a client out of the set is the hub taking a send of
    the sweeper, when no handler is in its deferred function. *)
Lemma removal_step Marshal (w : World) (l : Label) (w' : World) (c : Conn) :
  step Marshal w l w' ->
  (forall c, sessions w !! c <> Some SUnregister) ->
  c ∈ dom (clients w) ->
  c ∉ dom (clients w') ->
  l = LSync ASweeper AHub (ToUnregister c).
Proof.
  intros Hstep Hun Hin Hout.
  destruct Hstep as [w a m order Hoff Hrecv Hord | w w' Hint | w order w' Hord Hint
                    | w c0 order i connection cl Hc Hord Hfind
                    | w c0 connection cl l1 l2 Href
                    | w c0 connection stamped l1 l2 Href
                    | w c0 Hnone | w c0 ev p p' Hp Hev | w d Hd].
  - inversion Hrecv as [ch Hh]; subst.
    cbn [clients with_hub with_clients] in Hout.
    destruct m as [connection|message|connection]; cbn [hub_recv] in Hout.
    + exfalso. apply Hout. rewrite dom_insert_L. apply elem_of_union_r. exact Hin.
    + exfalso. exact (Hout Hin).
    + assert (connection = c) as ->.
      { destruct (decide (connection = c)) as [Heq|Hne]; [exact Heq|].
        exfalso. apply Hout. rewrite dom_delete_L. apply elem_of_difference.
        split; [exact Hin|]. intros Hs. apply elem_of_singleton in Hs. congruence. }
      destruct a as [| |c1|c1]; cbn [offers] in Hoff.
      * rewrite Hh in Hoff. discriminate Hoff.
      * reflexivity.
      * destruct (sessions w !! c1) as [[|st|j st| |]|] eqn:Hs; try discriminate Hoff.
        exfalso. exact (Hun c1 Hs).
      * discriminate Hoff.
  - exfalso. apply Hout. unfold hub_internal in Hint.
    destruct (hub w) as [|message [|connection todo]|message connection todo
                        |message connection todo]; try discriminate Hint.
    + injection Hint as <-. exact Hin.
    + destruct (write_fails connection w); injection Hint as <-; exact Hin.
    + destruct (write_fails connection w); injection Hint as <-; exact Hin.
  - exfalso. apply Hout. unfold sweeper_internal in Hint.
    destruct (sweeper w) as [|[|[connection cl] todo]|connection todo];
      try discriminate Hint.
    + injection Hint as <-. exact Hin.
    + injection Hint as <-. exact Hin.
    + destruct (now w - LastSeen cl >? 2 * second)%Z; injection Hint as <-; exact Hin.
  - exfalso. exact (Hout Hin).
  - exfalso. exact (Hout Hin).
  - exfalso. apply Hout. cbn [clients with_refreshers with_clients].
    rewrite dom_insert_L. apply elem_of_union_r. exact Hin.
  - exfalso. exact (Hout Hin).
  - exfalso. exact (Hout Hin).
  - exfalso. exact (Hout Hin).
Qed.

(** X19.  Short of a panic, a websocket handler never leaves its event
    loop.  In every execution that starts with no handler in its deferred
    function and the hub not past a send of its own on [unregister]: no
    handler gets to its deferred function, so none sends on [unregister];
    no connection is closed, by a handler or by the hub; a handler that is
    in its loop is in its loop ever after; and a step that takes a client
    out of the set is the hub taking a send of [cleanClients], never one
    of the viewer's handler. *)
Theorem handlers_stay_in_their_loop :
  forall Marshal (w0 w : World),
    steps Marshal w0 w ->
    (forall c, sessions w0 !! c <> Some SUnregister) ->
    (forall message c todo, hub w0 <> HClose message c todo) ->
    (forall c, sessions w !! c <> Some SUnregister)
    /\ (forall c, offers w (ASession c) <> Some (ToUnregister c))
    /\ closed w = closed w0
    /\ (forall c p, sessions w0 !! c = Some p -> in_loop p = true ->
          exists p', sessions w !! c = Some p' /\ in_loop p' = true)
    /\ (forall l w' c,
          step Marshal w l w' ->
          c ∈ dom (clients w) -> c ∉ dom (clients w') ->
          l = LSync ASweeper AHub (ToUnregister c)).
Proof.
  intros Marshal w0 w Hsteps Hun Hcl.
  destruct (loop_steps Marshal w0 w Hsteps Hun Hcl) as (Hun' & _ & Hclosed & Hloop).
  split; [exact Hun'|]. split.
  { intros c Hoff. cbn [offers] in Hoff.
    destruct (sessions w !! c) as [[|st|j st| |]|] eqn:Hs; try discriminate Hoff.
    exact (Hun' c Hs). }
  split; [exact Hclosed|]. split; [exact Hloop|].
  intros l w' c Hstep. exact (removal_step Marshal w l w' c Hstep Hun').
Qed.

Lemma handlers_stay_in_their_loop_witness :
  steps Samples.Marshal Samples.one_viewer Samples.second_viewer_registered
  /\ closed Samples.second_viewer_registered = closed Samples.one_viewer
  /\ (exists p', sessions Samples.second_viewer_registered !! 1%nat = Some p'
                 /\ in_loop p' = true)
  /\ (forall c, offers Samples.second_viewer_registered (ASession c)
                <> Some (ToUnregister c)).
Proof.
  assert (Hsteps : steps Samples.Marshal Samples.one_viewer Samples.second_viewer_registered).
  { eapply steps_step.
    - apply (step_accept Samples.Marshal Samples.one_viewer 2%nat). reflexivity.
    - eapply steps_step; [|apply steps_refl].
      apply (step_sync Samples.Marshal Samples.second_viewer_accepted (ASession 2%nat)
               (ToRegister 2%nat)
               (elements (dom (hub_recv (ToRegister 2%nat)
                                 (now Samples.second_viewer_accepted)
                                 (clients Samples.second_viewer_accepted))))).
      + reflexivity.
      + apply receiving_hub. reflexivity.
      + reflexivity. }
  split; [exact Hsteps|].
  destruct (handlers_stay_in_their_loop Samples.Marshal Samples.one_viewer
              Samples.second_viewer_registered Hsteps)
    as (_ & Hoff & Hclosed & Hloop & _).
  - intros c. change (sessions Samples.one_viewer)
      with (<[1%nat := SSelect Session.init]> (∅ : gmap Conn SessPc)).
    destruct (decide (c = 1%nat)) as [->|Hne].
    + rewrite lookup_insert_eq. discriminate.
    + rewrite lookup_insert_ne by congruence. rewrite lookup_empty. discriminate.
  - discriminate.
  - split; [exact Hclosed|]. split; [|exact Hoff].
    apply (Hloop 1%nat (SSelect Session.init)); reflexivity.
Defined.

End HubMore.

(* --------------------------------------------------------------------- *)
(** ** [RunBackup], the tray icon                                        *)
(* --------------------------------------------------------------------- *)

Section ResticMore.
Import Restic.

Lemma foldl_append (acc : list string) (params : list (list string)) :
  foldl (fun cmds p => cmds ++ p) acc params = acc ++ concat params.
Proof.
  revert acc. induction params as [|p params IH]; intros acc; cbn.
  - rewrite app_nil_r. reflexivity.
  - rewrite IH, app_assoc. reflexivity.
Qed.

(** X21.  [RunBackup] never runs restic: the two buffers stay as they
    are and only lines are printed.  It refuses with "Nope!" exactly when
    there is no target repository, or a backup and a source repository are
    both given; with a target and neither of the two it prints nothing;
    otherwise it prints the command it would run. *)
Theorem RunBackup_only_prints :
  forall (backup : option Backup) (toRepository fromRepository : option Repository) (r : t),
    let r' := snd (RunBackup backup toRepository fromRepository r) in
    errb r' = errb r /\ outb r' = outb r
    /\ (toRepository = None \/ (backup <> None /\ fromRepository <> None) ->
        console r' = console r ++ ["Nope!"])
    /\ (toRepository <> None -> backup = None -> fromRepository = None ->
        console r' = console r)
    /\ (forall b, toRepository <> None -> backup = Some b -> fromRepository = None ->
          console r'
          = console r ++ ["[" +:+ String.concat " " ("backup" :: concat (BackupParams b)) +:+ "]"])
    /\ (forall from, toRepository <> None -> backup = None -> fromRepository = Some from ->
          console r'
          = console r ++ ["[" +:+ String.concat " " ["copy"; "--from-repo"; Path from] +:+ "]";
                          "[" +:+ String.concat " " ["RESTIC_FROM_PASSWORD"; Password from]
                              +:+ "]"]).
Proof.
  intros backup toRepository fromRepository r r'. subst r'. unfold RunBackup.
  destruct backup as [b|], toRepository as [to|], fromRepository as [from|];
    cbn [is_nil andb orb negb snd Println Println_slice errb outb console];
    (split; [reflexivity|]); (split; [reflexivity|]);
    (split; [intros [H|[H1 H2]]; try discriminate H; try contradiction; reflexivity|]);
    (split; [intros H1 H2 H3; try discriminate H2; try discriminate H3;
             try contradiction; reflexivity|]);
    (split; [intros b' H1 H2 H3; try discriminate H2; try discriminate H3;
             try contradiction|
             intros from' H1 H2 H3; try discriminate H2; try discriminate H3;
             try contradiction]).
  - injection H2 as <-. rewrite foldl_append. reflexivity.
  - injection H3 as <-. rewrite <- app_assoc. reflexivity.
Qed.

Lemma RunBackup_only_prints_witness :
  console (snd (RunBackup (Some (mkBackup [["/home"]; ["--tag"; "daily"]]))
                  (Some Samples.repo) None Samples.restic0))
  = console Samples.restic0
    ++ ["[" +:+ String.concat " " ("backup" :: concat [["/home"]; ["--tag"; "daily"]]) +:+ "]"].
Proof.
  destruct (RunBackup_only_prints (Some (mkBackup [["/home"]; ["--tag"; "daily"]]))
              (Some Samples.repo) None Samples.restic0) as (_ & _ & _ & _ & H & _).
  apply (H (mkBackup [["/home"]; ["--tag"; "daily"]])); [discriminate|reflexivity|reflexivity].
Defined.

End ResticMore.

Section AppFacts.
Import App.

Lemma toggles_app (l k : list nat) (def : bool) (shown : Icon) :
  toggles (l ++ k) def shown
  = toggles k (fst (toggles l def shown)) (snd (toggles l def shown)).
Proof.
  revert def shown. induction l as [|x l IH]; intros def shown; [reflexivity|].
  cbn [app toggles]. destruct (toggle x def) as [set def']. apply IH.
Qed.

(** X22.  The tray icon blinks: started on the default icon with the
    flag set, after any number of runs of the task the flag is set again
    exactly when that number is even, and the tray shows the active icon
    exactly when the number is odd and the last run found a job running. *)
Theorem tray_icon_blinks :
  forall runs : list nat,
    toggles runs true default_icon
    = (Nat.even (length runs),
       if Nat.odd (length runs) && found_running runs then active_icon else default_icon).
Proof.
  induction runs as [|x runs IH] using rev_ind; [reflexivity|].
  rewrite toggles_app, IH, length_app. cbn [fst snd length].
  rewrite Nat.add_1_r, Nat.even_succ, Nat.odd_succ.
  unfold found_running. rewrite last_snoc.
  unfold Nat.odd. destruct (Nat.even (length runs)) eqn:He; cbn.
  - destruct x; reflexivity.
  - reflexivity.
Qed.

End AppFacts.
